(** * CommsDataVisualizer: the time-windowed spatial aggregation

    A shallow embedding of [preprocess_data] and [merge_bucket] of
    [visualizer.py] and [visualizer2.py], and of the part of [main] that
    decides between "no data" and a rendered map; of the colour functions
    of the two files and the colour [main] gives a marker; and of the
    directory walks of [main] in [visualizer2.py] and of [printLinks] in
    [generatelinks.py].

    Conventions of the embedding.
    - A pandas Timestamp is the number of nanoseconds since the epoch, in [Z];
      [timedelta(seconds=n)] is [n * 10^9].  The difference of two
      Timestamps is a Timedelta, a signed 64-bit count of nanoseconds:
      subtracting raises when the difference is not strictly between
      -2^63 and 2^63.
    - A float is the rational number it denotes ([Q]); equality of floats is
      [Qeq], rounding is not modelled.  NaN is a separate constructor.
    - A cell of a metric column is a number, NaN (missing) or a Python [str]
      (what [read_csv] leaves in a column holding text).  The coordinate
      columns are float columns: a number or NaN.
    - Exceptions are not distinguished: a computation either returns [Ok v]
      or is [Raise].  The colour functions catch ValueError and TypeError,
      so the conversion [float(x)] has three outcomes: converted, refused
      (caught) and overflowed (OverflowError, not caught).
    - What pandas leaves open is a parameter (class [Pandas]): the parser
      behind [pd.to_datetime], and the order [sort_values] gives to rows
      that compare equal under its default [kind="quicksort"]. *)

From Stdlib Require Import ZArith QArith Qround List Ascii String Bool Lia.
From Stdlib Require Import Permutation Sorted Lqa.
Import ListNotations.

Set Implicit Arguments.

(** ** Results of computations that may raise *)

Inductive result (A : Type) : Type :=
| Ok (a : A)
| Raise.
Arguments Raise {A}.

Definition bind {A B} (c : result A) (k : A -> result B) : result B :=
  match c with
  | Ok a => k a
  | Raise => Raise
  end.

Declare Scope result_scope.
Delimit Scope result_scope with result.
Notation "x <- c ;; k" := (bind c (fun x => k))
  (at level 61, c at next level, right associativity) : result_scope.

Local Open Scope result_scope.

Fixpoint foldM {A B} (f : B -> A -> result B) (l : list A) (b : B) : result B :=
  match l with
  | [] => Ok b
  | x :: l' => b' <- f b x ;; foldM f l' b'
  end.

Fixpoint mapM {A B} (f : A -> result B) (l : list A) : result (list B) :=
  match l with
  | [] => Ok []
  | x :: l' => y <- f x ;; ys <- mapM f l' ;; Ok (y :: ys)
  end.

(** ** Cells, rows and frames *)

Inductive cell : Type :=
| Num (q : Q)
| NaN
| Str (s : string).

(** One row of the table.  [D] is the type of the [datetime] column (raw
    cells as read, [option Z] once parsed, [Z] once NaT rows are dropped) and
    [C] the type of the coordinate columns ([option Q] while NaN is possible,
    [Q] afterwards). *)
Record row (D C : Type) : Type := mkRow {
  datetime : D;
  latitude : C;
  longitude : C;
  wireless_signal : cell;
  wireless_noisef : cell;
  wireless_rssi : cell;
  wireless_txpower : cell;
  wireless_distance : cell;
  wireless_ccq : cell;
  wireless_txrate : cell;
  wireless_rxrate : cell;
  wireless_channel : cell;
  wireless_frequency : cell;
  wireless_opmode : cell
}.

Definition raw_row : Type := row cell (option Q).
Definition parsed_row : Type := row (option Z) (option Q).
Definition sample : Type := row Z Q.

(** A value of the dictionary built by [merge_bucket]. *)
Inductive value : Type :=
| Timestamp (t : Z)
| Cell (c : cell)
| Len (n : nat).

Definition merged : Type := list (string * value).

Fixpoint get (key : string) (d : merged) : option value :=
  match d with
  | [] => None
  | (k, v) :: d' => if String.eqb k key then Some v else get key d'
  end.

(** ** pandas reductions over one column

    [Series.min], [Series.max] and [Series.mean] with the default
    [skipna=True]: NaN cells are left out, and a column with nothing left
    gives NaN.  On a column holding a [str], [mean] raises TypeError; [min]
    and [max] compare strings when every cell is a string and raise
    TypeError when strings are mixed with floats. *)

Definition is_str (c : cell) : bool :=
  match c with Str _ => true | _ => false end.

Definition numbers (col : list cell) : list Q :=
  flat_map (fun c => match c with Num q => [q] | _ => [] end) col.

Definition strings (col : list cell) : list string :=
  flat_map (fun c => match c with Str s => [s] | _ => [] end) col.

Definition qmin (a b : Q) : Q := if Qle_bool a b then a else b.
Definition qmax (a b : Q) : Q := if Qle_bool a b then b else a.
Definition smin (a b : string) : string := if String.leb a b then a else b.
Definition smax (a b : string) : string := if String.leb a b then b else a.

Definition reduce {A} (op : A -> A -> A) (l : list A) : option A :=
  match l with
  | [] => None
  | x :: l' => Some (fold_left op l' x)
  end.

Definition extremum (qop : Q -> Q -> Q) (sop : string -> string -> string)
    (col : list cell) : result cell :=
  if existsb is_str col then
    if forallb is_str col then
      match reduce sop (strings col) with
      | Some s => Ok (Str s)
      | None => Ok NaN
      end
    else Raise
  else
    match reduce qop (numbers col) with
    | Some q => Ok (Num q)
    | None => Ok NaN
    end.

Definition series_min : list cell -> result cell := extremum qmin smin.
Definition series_max : list cell -> result cell := extremum qmax smax.

Definition qsum (l : list Q) : Q := fold_right Qplus 0%Q l.

Definition series_mean (col : list cell) : result cell :=
  if existsb is_str col then Raise
  else
    match numbers col with
    | [] => Ok NaN
    | qs => Ok (Num (qsum qs / inject_Z (Z.of_nat (List.length qs))))
    end.

(** [Series.min] of a datetime column without NaT. *)
Definition datetime_min (first : Z) (rest : list Z) : Z :=
  fold_left Z.min rest first.

(** ** The pandas operations the aggregation relies on *)

(** Ascending order on the [datetime] column. *)
Definition by_datetime (a b : sample) : Prop :=
  (datetime a <= datetime b)%Z.

(** The key of [groupby(["latitude", "longitude"])], compared as floats. *)
Definition key : Type := (Q * Q)%type.

Definition key_of (r : sample) : key := (latitude r, longitude r).

Definition key_compare (k1 k2 : key) : comparison :=
  match fst k1 ?= fst k2 with
  | Eq => snd k1 ?= snd k2
  | c => c
  end.

(** Lexicographic order on [["latitude", "longitude", "datetime"]]. *)
Definition frame_compare (a b : sample) : comparison :=
  match key_compare (key_of a) (key_of b) with
  | Eq => (datetime a ?= datetime b)%Z
  | c => c
  end.

Definition by_lat_lon_datetime (a b : sample) : Prop :=
  frame_compare a b <> Gt.

(** What the code takes from pandas without fixing it itself.

    [to_datetime] is [pd.to_datetime(..., errors="coerce")] on one cell:
    [None] is NaT.  The two sorts are [DataFrame.sort_values] with the
    default [kind="quicksort"]: the result is the rows rearranged into
    ascending order of the sort columns; nothing is promised about rows that
    compare equal. *)
Class Pandas : Type := {
  to_datetime : cell -> option Z;
  sort_values_lat_lon_datetime : list sample -> list sample;
  sort_values_datetime : list sample -> list sample;
  sort_frame_Permutation :
    forall df, Permutation (sort_values_lat_lon_datetime df) df;
  sort_frame_Sorted :
    forall df, Sorted by_lat_lon_datetime (sort_values_lat_lon_datetime df);
  sort_group_Permutation :
    forall group, Permutation (sort_values_datetime group) group;
  sort_group_Sorted :
    forall group, Sorted by_datetime (sort_values_datetime group)
}.

(** [df["datetime"] = pd.to_datetime(df["datetime"], errors="coerce")],
    row by row. *)
Definition parse_row `{Pandas} (r : raw_row) : parsed_row :=
  mkRow (to_datetime (datetime r)) (latitude r) (longitude r)
    (wireless_signal r) (wireless_noisef r) (wireless_rssi r)
    (wireless_txpower r) (wireless_distance r) (wireless_ccq r)
    (wireless_txrate r) (wireless_rxrate r)
    (wireless_channel r) (wireless_frequency r) (wireless_opmode r).

(** A row survives [dropna(subset=["datetime", "latitude", "longitude"])]
    when none of the three is NaT or NaN. *)
Definition notna (r : parsed_row) : option sample :=
  match datetime r, latitude r, longitude r with
  | Some t, Some lat, Some lon =>
      Some (mkRow t lat lon
        (wireless_signal r) (wireless_noisef r) (wireless_rssi r)
        (wireless_txpower r) (wireless_distance r) (wireless_ccq r)
        (wireless_txrate r) (wireless_rxrate r)
        (wireless_channel r) (wireless_frequency r) (wireless_opmode r))
  | _, _, _ => None
  end.

Definition dropna_rows (df : list parsed_row) : list sample :=
  flat_map (fun r => match notna r with Some s => [s] | None => [] end) df.

(** [groupby]: one group per distinct key, groups in ascending key order
    (the default [sort=True]), the rows of a group in the order of the
    frame. *)
Fixpoint insert_group (r : sample) (groups : list (key * list sample))
    : list (key * list sample) :=
  match groups with
  | [] => [(key_of r, [r])]
  | (k, g) :: rest =>
      match key_compare (key_of r) k with
      | Eq => (k, g ++ [r]) :: rest
      | Lt => (key_of r, [r]) :: (k, g) :: rest
      | Gt => (k, g) :: insert_group r rest
      end
  end.

Definition groupby_rows (df : list sample) : list (key * list sample) :=
  fold_left (fun groups r => insert_group r groups) df [].

(** ** The object store

    [preprocess_data] receives a reference to a DataFrame.  The store maps
    references (positions) to frames; an operation either allocates a new
    frame or, for column assignment, overwrites the frame it is applied to. *)

Inductive DataFrame : Type :=
| RawFrame (rows : list raw_row)
| ParsedFrame (rows : list parsed_row)
| Frame (rows : list sample)
| MergedFrame (rows : list merged).

Definition ref : Type := nat.
Definition heap : Type := list DataFrame.

Definition M (A : Type) : Type := heap -> result A * heap.

Definition ret {A} (a : A) : M A := fun h => (Ok a, h).

Definition bindM {A B} (c : M A) (k : A -> M B) : M B :=
  fun h =>
    match c h with
    | (Ok a, h') => k a h'
    | (Raise, h') => (Raise, h')
    end.

Notation "x <~ c ;; k" := (bindM c (fun x => k))
  (at level 61, c at next level, right associativity) : result_scope.

Definition lift {A} (r : result A) : M A := fun h => (r, h).

Definition alloc (d : DataFrame) : M ref :=
  fun h => (Ok (List.length h), h ++ [d]).

Fixpoint store (df : ref) (d : DataFrame) (h : heap) : heap :=
  match h, df with
  | [], _ => []
  | _ :: h', O => d :: h'
  | d' :: h', S n => d' :: store n d h'
  end.

(** [df.copy()] *)
Definition DataFrame_copy (df : ref) : M ref :=
  fun h =>
    match nth_error h df with
    | Some d => alloc d h
    | None => (Raise, h)
    end.

(** [df["datetime"] = pd.to_datetime(df["datetime"], errors="coerce")]:
    the frame [df] refers to is overwritten. *)
Definition assign_datetime `{Pandas} (df : ref) : M unit :=
  fun h =>
    match nth_error h df with
    | Some (RawFrame rows) => (Ok tt, store df (ParsedFrame (map parse_row rows)) h)
    | _ => (Raise, h)
    end.

(** [df.dropna(subset=["datetime", "latitude", "longitude"])] *)
Definition dropna (df : ref) : M ref :=
  fun h =>
    match nth_error h df with
    | Some (ParsedFrame rows) => alloc (Frame (dropna_rows rows)) h
    | _ => (Raise, h)
    end.

(** [df.sort_values(["latitude", "longitude", "datetime"])] *)
Definition sort_values `{Pandas} (df : ref) : M ref :=
  fun h =>
    match nth_error h df with
    | Some (Frame rows) => alloc (Frame (sort_values_lat_lon_datetime rows)) h
    | _ => (Raise, h)
    end.

(** [df.groupby(["latitude", "longitude"])] *)
Definition groupby (df : ref) : M (list (key * list sample)) :=
  fun h =>
    match nth_error h df with
    | Some (Frame rows) => (Ok (groupby_rows rows), h)
    | _ => (Raise, h)
    end.

(** [pd.DataFrame(merged_rows)] *)
Definition new_DataFrame (merged_rows : list merged) : M ref :=
  alloc (MergedFrame merged_rows).

(** What [main] does that can be observed from outside. *)
Inductive event : Type :=
| Printed (line : string)
| Saved (path : string) (markers : list merged).

Definition MERGE_WINDOW_SECONDS : Z := 6.

Definition timedelta (seconds : Z) : Z := (seconds * 1000000000)%Z.

(** [a - b] for two Timestamps: the Timedelta, in nanoseconds.  A Timedelta
    is an int64 other than the least one, which stands for NaT; the
    subtraction raises (OutOfBoundsDatetime) when the difference is none. *)
Definition Timestamp_sub (a b : Z) : result Z :=
  let elapsed := (a - b)%Z in
  if ((-9223372036854775808 <? elapsed) && (elapsed <? 9223372036854775808))%Z
  then Ok elapsed
  else Raise.

(** The state of the loop over the rows of one group. *)
Record loop_state (A : Type) : Type := mkLoop {
  merged_rows : list A;
  current_bucket : list sample;
  bucket_start_time : option Z
}.

(** ** visualizer.py *)

Module Visualizer.

(** [merge_bucket(rows)].  [pd.DataFrame([])] has no columns, so an empty
    list raises KeyError at the first column access. *)
Definition merge_bucket (rows : list sample) : result merged :=
  match rows with
  | [] => Raise
  | first :: rest =>
      signal_min <- series_min (map (@wireless_signal _ _) rows) ;;
      signal_max <- series_max (map (@wireless_signal _ _) rows) ;;
      noise_min <- series_min (map (@wireless_noisef _ _) rows) ;;
      noise_max <- series_max (map (@wireless_noisef _ _) rows) ;;
      txrate_max <- series_max (map (@wireless_txrate _ _) rows) ;;
      txrate_min <- series_min (map (@wireless_txrate _ _) rows) ;;
      rxrate_max <- series_max (map (@wireless_rxrate _ _) rows) ;;
      rxrate_min <- series_min (map (@wireless_rxrate _ _) rows) ;;
      signal <- series_mean (map (@wireless_signal _ _) rows) ;;
      noisef <- series_mean (map (@wireless_noisef _ _) rows) ;;
      rssi <- series_mean (map (@wireless_rssi _ _) rows) ;;
      txpower <- series_mean (map (@wireless_txpower _ _) rows) ;;
      distance <- series_mean (map (@wireless_distance _ _) rows) ;;
      ccq <- series_mean (map (@wireless_ccq _ _) rows) ;;
      txrate <- series_mean (map (@wireless_txrate _ _) rows) ;;
      rxrate <- series_mean (map (@wireless_rxrate _ _) rows) ;;
      Ok [ ("datetime"%string,
              Timestamp (datetime_min (datetime first) (map (@datetime _ _) rest)));
           ("latitude"%string, Cell (Num (latitude first)));
           ("longitude"%string, Cell (Num (longitude first)));
           ("signal_min"%string, Cell signal_min);
           ("signal_max"%string, Cell signal_max);
           ("noise_min"%string, Cell noise_min);
           ("noise_max"%string, Cell noise_max);
           ("wireless_txrate_max"%string, Cell txrate_max);
           ("wireless_txrate_min"%string, Cell txrate_min);
           ("wireless_rxrate_max"%string, Cell rxrate_max);
           ("wireless_rxrate_min"%string, Cell rxrate_min);
           ("wireless_signal"%string, Cell signal);
           ("wireless_noisef"%string, Cell noisef);
           ("wireless_rssi"%string, Cell rssi);
           ("wireless_txpower"%string, Cell txpower);
           ("wireless_distance"%string, Cell distance);
           ("wireless_ccq"%string, Cell ccq);
           ("wireless_txrate"%string, Cell txrate);
           ("wireless_rxrate"%string, Cell rxrate);
           ("wireless_channel"%string, Cell (wireless_channel first));
           ("wireless_frequency"%string, Cell (wireless_frequency first));
           ("wireless_opmode"%string, Cell (wireless_opmode first));
           ("samples_merged"%string, Len (List.length rows)) ]
  end.

(** The loops of [preprocess_data], with the call of [merge_bucket] taken as
    the parameter [emit], so that the buckets handed to it can be observed
    ([emit := Ok]) as well as reduced ([emit := merge_bucket]). *)
Section Loops.

Context {A : Type} (emit : list sample -> result A).

(** One turn of [for _, row in group.iterrows()].  Subtracting [None] from a
    Timestamp raises TypeError, and subtracting a Timestamp raises when the
    difference is no Timedelta. *)
Definition loop_body (st : loop_state A) (row : sample) : result (loop_state A) :=
  match current_bucket st with
  | [] => Ok (mkLoop (merged_rows st) [row] (Some (datetime row)))
  | _ :: _ =>
      match bucket_start_time st with
      | None => Raise
      | Some start =>
          elapsed <- Timestamp_sub (datetime row) start ;;
          if (elapsed <=? timedelta MERGE_WINDOW_SECONDS)%Z then
            Ok (mkLoop (merged_rows st) (current_bucket st ++ [row])
                  (bucket_start_time st))
          else
            m <- emit (current_bucket st) ;;
            Ok (mkLoop (merged_rows st ++ [m]) [row] (Some (datetime row)))
      end
  end.

(** The body of [for (lat, lon), group in df.groupby(...)]. *)
Definition merge_group `{Pandas} (merged_rows0 : list A) (group : list sample)
    : result (list A) :=
  let group := sort_values_datetime group in
  st <- foldM loop_body group (mkLoop merged_rows0 [] None) ;;
  match current_bucket st with
  | [] => Ok (merged_rows st)
  | _ :: _ =>
      m <- emit (current_bucket st) ;;
      Ok (merged_rows st ++ [m])
  end.

Definition merge_groups `{Pandas} (groups : list (key * list sample))
    : result (list A) :=
  foldM (fun merged_rows0 g => merge_group merged_rows0 (snd g)) groups [].

End Loops.

(** [preprocess_data(df)] *)
Definition preprocess_data `{Pandas} (df : ref) : M ref :=
  df <~ DataFrame_copy df ;;
  _ <~ assign_datetime df ;;
  df <~ dropna df ;;
  df <~ sort_values df ;;
  groups <~ groupby df ;;
  merged_rows0 <~ lift (merge_groups merge_bucket groups) ;;
  new_DataFrame merged_rows0.

(** [main(csv_file, output_html)], from the frame [pd.read_csv] returns to
    the events it produces.  A marker is built from each record; the marker
    itself (colour, popup text) is left to folium and kept here as the record
    it is built from. *)
Definition main `{Pandas} (csv_file : list raw_row) (output_html : string)
    : result (list event) :=
  match preprocess_data 0%nat [RawFrame csv_file] with
  | (Ok df, h) =>
      match nth_error h df with
      | Some (MergedFrame []) =>
          Ok [Printed "No valid data after preprocessing."%string]
      | Some (MergedFrame (r :: rows)) =>
          Ok [Saved output_html (r :: rows);
              Printed (String.append "Map saved to "%string output_html)]
      | _ => Raise
      end
  | (Raise, _) => Raise
  end.

End Visualizer.

(** ** visualizer2.py

    The file repeats [preprocess_data] and [merge_bucket]; its
    [generate_map] no longer calls them. *)

Module Visualizer2.

(** [merge_bucket(rows)].  [pd.DataFrame([])] has no columns, so an empty
    list raises KeyError at the first column access. *)
Definition merge_bucket (rows : list sample) : result merged :=
  match rows with
  | [] => Raise
  | first :: rest =>
      signal_min <- series_min (map (@wireless_signal _ _) rows) ;;
      signal_max <- series_max (map (@wireless_signal _ _) rows) ;;
      noise_min <- series_min (map (@wireless_noisef _ _) rows) ;;
      noise_max <- series_max (map (@wireless_noisef _ _) rows) ;;
      txrate_max <- series_max (map (@wireless_txrate _ _) rows) ;;
      txrate_min <- series_min (map (@wireless_txrate _ _) rows) ;;
      rxrate_max <- series_max (map (@wireless_rxrate _ _) rows) ;;
      rxrate_min <- series_min (map (@wireless_rxrate _ _) rows) ;;
      signal <- series_mean (map (@wireless_signal _ _) rows) ;;
      noisef <- series_mean (map (@wireless_noisef _ _) rows) ;;
      rssi <- series_mean (map (@wireless_rssi _ _) rows) ;;
      txpower <- series_mean (map (@wireless_txpower _ _) rows) ;;
      distance <- series_mean (map (@wireless_distance _ _) rows) ;;
      ccq <- series_mean (map (@wireless_ccq _ _) rows) ;;
      txrate <- series_mean (map (@wireless_txrate _ _) rows) ;;
      rxrate <- series_mean (map (@wireless_rxrate _ _) rows) ;;
      Ok [ ("datetime"%string,
              Timestamp (datetime_min (datetime first) (map (@datetime _ _) rest)));
           ("latitude"%string, Cell (Num (latitude first)));
           ("longitude"%string, Cell (Num (longitude first)));
           ("signal_min"%string, Cell signal_min);
           ("signal_max"%string, Cell signal_max);
           ("noise_min"%string, Cell noise_min);
           ("noise_max"%string, Cell noise_max);
           ("wireless_txrate_max"%string, Cell txrate_max);
           ("wireless_txrate_min"%string, Cell txrate_min);
           ("wireless_rxrate_max"%string, Cell rxrate_max);
           ("wireless_rxrate_min"%string, Cell rxrate_min);
           ("wireless_signal"%string, Cell signal);
           ("wireless_noisef"%string, Cell noisef);
           ("wireless_rssi"%string, Cell rssi);
           ("wireless_txpower"%string, Cell txpower);
           ("wireless_distance"%string, Cell distance);
           ("wireless_ccq"%string, Cell ccq);
           ("wireless_txrate"%string, Cell txrate);
           ("wireless_rxrate"%string, Cell rxrate);
           ("wireless_channel"%string, Cell (wireless_channel first));
           ("wireless_frequency"%string, Cell (wireless_frequency first));
           ("wireless_opmode"%string, Cell (wireless_opmode first));
           ("samples_merged"%string, Len (List.length rows)) ]
  end.

(** One turn of [for _, row in group.iterrows()]. *)
Definition loop_body (st : loop_state merged) (row : sample)
    : result (loop_state merged) :=
  match current_bucket st with
  | [] => Ok (mkLoop (merged_rows st) [row] (Some (datetime row)))
  | _ :: _ =>
      match bucket_start_time st with
      | None => Raise
      | Some start =>
          elapsed <- Timestamp_sub (datetime row) start ;;
          if (elapsed <=? timedelta MERGE_WINDOW_SECONDS)%Z then
            Ok (mkLoop (merged_rows st) (current_bucket st ++ [row])
                  (bucket_start_time st))
          else
            m <- merge_bucket (current_bucket st) ;;
            Ok (mkLoop (merged_rows st ++ [m]) [row] (Some (datetime row)))
      end
  end.

(** The body of [for (lat, lon), group in df.groupby(...)]. *)
Definition merge_group `{Pandas} (merged_rows0 : list merged)
    (group : list sample) : result (list merged) :=
  let group := sort_values_datetime group in
  st <- foldM loop_body group (mkLoop merged_rows0 [] None) ;;
  match current_bucket st with
  | [] => Ok (merged_rows st)
  | _ :: _ =>
      m <- merge_bucket (current_bucket st) ;;
      Ok (merged_rows st ++ [m])
  end.

(** [preprocess_data(df)] *)
Definition preprocess_data `{Pandas} (df : ref) : M ref :=
  df <~ DataFrame_copy df ;;
  _ <~ assign_datetime df ;;
  df <~ dropna df ;;
  df <~ sort_values df ;;
  groups <~ groupby df ;;
  merged_rows0 <~ lift
    (foldM (fun merged_rows0 g => merge_group merged_rows0 (snd g)) groups []) ;;
  new_DataFrame merged_rows0.

End Visualizer2.

(** ** Notions the statements are written with *)

(** The valid samples of an input frame: the rows left after the datetime
    column is parsed and rows with NaT or a NaN coordinate are dropped. *)
Definition valid_samples `{Pandas} (df : list raw_row) : list sample :=
  dropna_rows (map parse_row df).

(** The groups the outer loop of [preprocess_data] iterates over. *)
Definition groups_of `{Pandas} (df : list raw_row) : list (key * list sample) :=
  groupby_rows (sort_values_lat_lon_datetime (valid_samples df)).

(** The windows of one group: the buckets the loop hands to [merge_bucket],
    in the order it does. *)
Definition windows `{Pandas} (group : list sample) : result (list (list sample)) :=
  Visualizer.merge_group (@Ok _) [] group.

(** All the windows of a frame. *)
Definition emitted_windows `{Pandas} (df : list raw_row)
    : result (list (list sample)) :=
  Visualizer.merge_groups (@Ok _) (groups_of df).

(** The merge threshold, in nanoseconds. *)
Definition threshold : Z := timedelta MERGE_WINDOW_SECONDS.

(** Any two timestamps of the list are less than 2^63 nanoseconds (some 292
    years) apart, so that their difference is a Timedelta. *)
Definition timedeltas_fit (l : list sample) : Prop :=
  forall a b, In a l -> In b l ->
    (Z.abs (datetime a - datetime b) < 9223372036854775808)%Z.

(** The windower as section 4.2 of the specification words it: the anchor is
    the first sample of the current window; a sample joins the window when
    its timestamp is at most the threshold after the anchor's, and otherwise
    closes it and anchors a new one. *)
Fixpoint windower_from (anchor : Z) (window : list sample) (l : list sample)
    : list (list sample) :=
  match l with
  | [] => [window]
  | r :: l' =>
      if (datetime r - anchor <=? threshold)%Z
      then windower_from anchor (window ++ [r]) l'
      else window :: windower_from (datetime r) [r] l'
  end.

Definition windower (l : list sample) : list (list sample) :=
  match l with
  | [] => []
  | r :: l' => windower_from (datetime r) [r] l'
  end.

(** The windower applied to every group, in the order of the groups. *)
Definition all_windows `{Pandas} (groups : list (key * list sample))
    : list (list sample) :=
  flat_map (fun g => windower (sort_values_datetime (snd g))) groups.

(** Every sample of a window is within the threshold of the window's first
    sample. *)
Definition anchored (w : list sample) : Prop :=
  match w with
  | [] => False
  | a :: rest => Forall (fun r => (datetime r - datetime a <= threshold)%Z) rest
  end.

(** Each window after the first starts more than the threshold after the
    anchor of the window before it. *)
Fixpoint separated (ws : list (list sample)) : Prop :=
  match ws with
  | (a1 :: _) :: (((a2 :: _) :: _) as ws') =>
      (datetime a2 - datetime a1 > threshold)%Z /\ separated ws'
  | [_] | [] => True
  | _ => False
  end.


Definition seconds (s : Z) : Z := timedelta s.

(** The numeric metrics of a sample. *)
Inductive metric : Type :=
| signal | noise | rssi | txpower | distance | ccq | txrate | rxrate.

Definition column (m : metric) (r : sample) : cell :=
  match m with
  | signal => wireless_signal r
  | noise => wireless_noisef r
  | rssi => wireless_rssi r
  | txpower => wireless_txpower r
  | distance => wireless_distance r
  | ccq => wireless_ccq r
  | txrate => wireless_txrate r
  | rxrate => wireless_rxrate r
  end.

(** The key under which a record holds the mean of a metric. *)
Definition mean_key (m : metric) : string :=
  match m with
  | signal => "wireless_signal"
  | noise => "wireless_noisef"
  | rssi => "wireless_rssi"
  | txpower => "wireless_txpower"
  | distance => "wireless_distance"
  | ccq => "wireless_ccq"
  | txrate => "wireless_txrate"
  | rxrate => "wireless_rxrate"
  end.

(** The keys under which a record holds the minimum and the maximum of a
    metric, for the metrics that have them. *)
Definition extrema_keys (m : metric) : option (string * string) :=
  match m with
  | signal => Some ("signal_min", "signal_max")
  | noise => Some ("noise_min", "noise_max")
  | txrate => Some ("wireless_txrate_min", "wireless_txrate_max")
  | rxrate => Some ("wireless_rxrate_min", "wireless_rxrate_max")
  | _ => None
  end%string.

(** No cell of a numeric metric is text. *)
Definition numeric_sample (r : sample) : Prop :=
  forall m, is_str (column m r) = false.

Definition numeric_window (w : list sample) : Prop := Forall numeric_sample w.

(** A metric is missing in a sample when its cell is NaN. *)
Definition missing (c : cell) : Prop := c = NaN.

(** Minimum, maximum and arithmetic mean of the numbers of a column; the
    statistic of a column without numbers is NaN. *)
Definition is_minimum (c : cell) (col : list cell) : Prop :=
  match c with
  | Num q => In q (numbers col) /\ Forall (fun x => q <= x)%Q (numbers col)
  | NaN => numbers col = []
  | Str _ => False
  end.

Definition is_maximum (c : cell) (col : list cell) : Prop :=
  match c with
  | Num q => In q (numbers col) /\ Forall (fun x => x <= q)%Q (numbers col)
  | NaN => numbers col = []
  | Str _ => False
  end.

Definition is_mean (c : cell) (col : list cell) : Prop :=
  match c with
  | Num q =>
      numbers col <> [] /\
      (q * inject_Z (Z.of_nat (List.length (numbers col))) == qsum (numbers col))%Q
  | NaN => numbers col = []
  | Str _ => False
  end.

(** The [samples_merged] field of a record. *)
Definition samples_merged (r : merged) : nat :=
  match get "samples_merged" r with
  | Some (Len n) => n
  | _ => O
  end.

Definition total_samples_merged (out : list merged) : nat :=
  fold_right (fun r n => (samples_merged r + n)%nat) O out.

(** Whether some value of a record is the number [q]. *)
Definition carries (r : merged) (q : Q) : bool :=
  existsb (fun kv => match snd kv with
                     | Cell (Num q') => Qeq_bool q' q
                     | _ => false
                     end) r.

(** ** A sort routine

    Insertion sort, with which the examples are run. *)
Section InsertionSort.

Context {A : Type} (leb : A -> A -> bool).

Fixpoint insert_sorted (x : A) (l : list A) : list A :=
  match l with
  | [] => [x]
  | y :: l' => if leb x y then x :: l else y :: insert_sorted x l'
  end.

Definition insertion_sort (l : list A) : list A :=
  fold_right insert_sorted [] l.

End InsertionSort.

Definition datetime_leb (a b : sample) : bool := (datetime a <=? datetime b)%Z.

Definition frame_leb (a b : sample) : bool :=
  match frame_compare a b with
  | Gt => false
  | _ => true
  end.

(** A parser for frames whose datetime column holds epoch nanoseconds, which
    [pd.to_datetime] reads as such; a missing or text cell gives NaT. *)
Definition epoch_nanoseconds (c : cell) : option Z :=
  match c with
  | Num q => Some (Qfloor q)
  | _ => None
  end.

(** The keys under which a record holds the statistics of a metric. *)
Definition stat_keys (m : metric) : list string :=
  mean_key m ::
  match extrema_keys m with
  | Some (kmin, kmax) => [kmin; kmax]
  | None => []
  end.

(** The keys of the dictionary [merge_bucket] builds, in its order. *)
Definition record_keys : list string :=
  [ "datetime"; "latitude"; "longitude";
    "signal_min"; "signal_max"; "noise_min"; "noise_max";
    "wireless_txrate_max"; "wireless_txrate_min";
    "wireless_rxrate_max"; "wireless_rxrate_min";
    "wireless_signal"; "wireless_noisef"; "wireless_rssi";
    "wireless_txpower"; "wireless_distance"; "wireless_ccq";
    "wireless_txrate"; "wireless_rxrate";
    "wireless_channel"; "wireless_frequency"; "wireless_opmode";
    "samples_merged" ]%string.

(** ** Section 4.3 and section 7 of the specification, as worded

    The record of a window holds, for every numeric metric, the minimum, the
    maximum and the mean of the metric over the window. *)
Definition has_all_statistics (w : list sample) (r : merged) : Prop :=
  forall m : metric,
    exists kmin kmax kmean cmin cmax cmean,
      get kmin r = Some (Cell cmin) /\ is_minimum cmin (map (column m) w) /\
      get kmax r = Some (Cell cmax) /\ is_maximum cmax (map (column m) w) /\
      get kmean r = Some (Cell cmean) /\ is_mean cmean (map (column m) w).

(** A metric missing or not numeric in some sample of the window does not
    make the reducer raise, and its statistics are reported as missing. *)
Definition missing_reported_as_missing
    (reducer : list sample -> result merged) (w : list sample) (m : metric)
    : Prop :=
  Exists (fun r => column m r = NaN \/ is_str (column m r) = true) w ->
  exists rec,
    reducer w = Ok rec /\
    forall k, In k (stat_keys m) -> get k rec = Some (Cell NaN).

(** ** Frames used in the examples *)

Definition sample_at (t : Z) (lat : Q) (signal_level rssi_level : cell) : sample :=
  mkRow t lat 20%Q
    signal_level (Num (-90)) rssi_level (Num 20) (Num 100) (Num 90)
    (Num 30) (Num 40)
    (Num 36) (Num 5180) (Str "sta").

Definition raw_at (t : cell) (lat : option Q) (signal_level : cell) : raw_row :=
  mkRow t lat (Some 20%Q)
    signal_level (Num (-90)) (Num (-60)) (Num 20) (Num 100) (Num 90)
    (Num 30) (Num 40)
    (Num 36) (Num 5180) (Str "sta").

(** Three samples at one place within six seconds, one more thirteen seconds
    after the first, one at another place, and two rows that are dropped. *)
Definition example_csv : list raw_row :=
  [ raw_at (Num (inject_Z (seconds 13))) (Some 10%Q) (Num (-70));
    raw_at (Num (inject_Z (seconds 0))) (Some 10%Q) (Num (-50));
    raw_at NaN (Some 10%Q) (Num (-50));
    raw_at (Num (inject_Z (seconds 6))) (Some 10%Q) NaN;
    raw_at (Num (inject_Z (seconds 5))) (Some 10%Q) (Num (-55));
    raw_at (Num (inject_Z (seconds 1))) None (Num (-50));
    raw_at (Num (inject_Z (seconds 2))) (Some 11%Q) (Num (-80)) ].

(** A frame none of whose rows is valid: no timestamp in the first, no
    latitude in the second. *)
Definition unusable_csv : list raw_row :=
  [ raw_at NaN (Some 10%Q) (Num (-50));
    raw_at (Num 5) None (Num (-50)) ].



(** A window whose rssi values are 1 and 3. *)
Definition rssi_window : list sample :=
  [ sample_at 0 10%Q (Num (-50)) (Num 1);
    sample_at 1 10%Q (Num (-55)) (Num 3) ].

(** A window of one sample whose signal level is text, a window in which the
    signal level is missing in one sample of two, and a window of one sample
    whose signal level is missing. *)
Definition text_window : list sample :=
  [ sample_at 0 10%Q (Str "abc") (Num (-60)) ].

Definition partly_missing_window : list sample :=
  [ sample_at 0 10%Q (Num (-50)) (Num (-60));
    sample_at 1 10%Q NaN (Num (-60)) ].

Definition missing_window : list sample :=
  [ sample_at 0 10%Q NaN (Num (-60)) ].

(** The dictionary [merge_bucket] builds for the window [first :: rest] from
    the sixteen statistics it computes. *)
Definition record_with (first : sample) (rest : list sample)
    (signal_min signal_max noise_min noise_max
     txrate_max txrate_min rxrate_max rxrate_min
     signal_mean noise_mean rssi_mean txpower_mean
     distance_mean ccq_mean txrate_mean rxrate_mean : cell) : merged :=
  [ ("datetime"%string,
       Timestamp (datetime_min (datetime first) (map (@datetime _ _) rest)));
    ("latitude"%string, Cell (Num (latitude first)));
    ("longitude"%string, Cell (Num (longitude first)));
    ("signal_min"%string, Cell signal_min);
    ("signal_max"%string, Cell signal_max);
    ("noise_min"%string, Cell noise_min);
    ("noise_max"%string, Cell noise_max);
    ("wireless_txrate_max"%string, Cell txrate_max);
    ("wireless_txrate_min"%string, Cell txrate_min);
    ("wireless_rxrate_max"%string, Cell rxrate_max);
    ("wireless_rxrate_min"%string, Cell rxrate_min);
    ("wireless_signal"%string, Cell signal_mean);
    ("wireless_noisef"%string, Cell noise_mean);
    ("wireless_rssi"%string, Cell rssi_mean);
    ("wireless_txpower"%string, Cell txpower_mean);
    ("wireless_distance"%string, Cell distance_mean);
    ("wireless_ccq"%string, Cell ccq_mean);
    ("wireless_txrate"%string, Cell txrate_mean);
    ("wireless_rxrate"%string, Cell rxrate_mean);
    ("wireless_channel"%string, Cell (wireless_channel first));
    ("wireless_frequency"%string, Cell (wireless_frequency first));
    ("wireless_opmode"%string, Cell (wireless_opmode first));
    ("samples_merged"%string, Len (List.length (first :: rest))) ].

(** ** The colour functions of visualizer.py and visualizer2.py

    A Python float is a rational, an infinity or nan.  [float_of_str] is
    [float(s)] on a [str], [None] when it raises ValueError. *)

Inductive pyfloat : Type :=
| Finite (q : Q)
| PosInf
| NegInf
| NotANumber.

(** [x == c] and [x >= c] for a float [x] and a finite constant [c]. *)
Definition float_eq (x : pyfloat) (c : Q) : bool :=
  match x with
  | Finite q => Qeq_bool q c
  | _ => false
  end.

Definition float_ge (x : pyfloat) (c : Q) : bool :=
  match x with
  | Finite q => Qle_bool c q
  | PosInf => true
  | NegInf | NotANumber => false
  end.

(** [x - y] *)
Definition float_sub (x y : pyfloat) : pyfloat :=
  match x, y with
  | NotANumber, _ | _, NotANumber => NotANumber
  | Finite a, Finite b => Finite (a - b)
  | Finite _, PosInf => NegInf
  | Finite _, NegInf => PosInf
  | PosInf, PosInf => NotANumber
  | PosInf, _ => PosInf
  | NegInf, NegInf => NotANumber
  | NegInf, _ => NegInf
  end.

(** What [float(x)] does: it returns a float, raises ValueError or TypeError
    (which the colour functions catch), or raises OverflowError (which they
    do not). *)
Inductive conversion : Type :=
| Converted (x : pyfloat)
| Refused
| Overflowed.

(** The least integer that [float] does not convert: it would round to
    2^1024. *)
Definition float_overflow : Z := (2 ^ 1024 - 2 ^ 970)%Z.

Section Colours.

Local Open Scope string_scope.

Variable float_of_str : string -> option pyfloat.

(** [float(x)].  A Timestamp has no conversion to float (TypeError); a
    string converts or not (ValueError); an integer converts unless it is
    too large (OverflowError). *)
Definition float (x : value) : conversion :=
  match x with
  | Cell (Num q) => Converted (Finite q)
  | Cell NaN => Converted NotANumber
  | Cell (Str s) =>
      match float_of_str s with
      | Some f => Converted f
      | None => Refused
      end
  | Len n =>
      if (Z.of_nat n <? float_overflow)%Z
      then Converted (Finite (inject_Z (Z.of_nat n)))
      else Overflowed
  | Timestamp _ => Refused
  end.

Definition signal_color (signal_value : value) : result string :=
  match float signal_value with
  | Overflowed => Raise
  | Refused => Ok "gray"
  | Converted x =>
      Ok (if float_eq x 0 then "black"
          else if float_ge x (-50) then "green"
          else if float_ge x (-60) then "lightgreen"
          else if float_ge x (-70) then "orange"
          else if float_ge x (-80) then "red"
          else "darkred")
  end.

Definition relative_signal_level_color (signal_value noise_value : value)
    : result string :=
  match float signal_value with
  | Overflowed => Raise
  | Refused => Ok "gray"
  | Converted s =>
      match float noise_value with
      | Overflowed => Raise
      | Refused => Ok "gray"
      | Converted n =>
          let level := float_sub s n in
          Ok (if float_eq level 0 then "black"
              else if float_ge level 40 then "green"
              else if float_ge level 30 then "lightgreen"
              else if float_ge level 20 then "yellow"
              else if float_ge level 10 then "orange"
              else if float_ge level 5 then "red"
              else "darkred")
      end
  end.

Definition bitrate_color (bitrate : value) : result string :=
  match float bitrate with
  | Overflowed => Raise
  | Refused => Ok "gray"
  | Converted x =>
      Ok (if float_eq x 0 then "black"
          else if float_ge x 50 then "green"
          else if float_ge x 40 then "lightgreen"
          else if float_ge x 30 then "yellow"
          else if float_ge x 20 then "orange"
          else if float_ge x 10 then "red"
          else "darkred")
  end.

(** visualizer2.py only. *)
Definition bitrate_color_halow (bitrate : value) : result string :=
  match float bitrate with
  | Overflowed => Raise
  | Refused => Ok "gray"
  | Converted x =>
      Ok (if float_eq x 0 then "black"
          else if float_ge x 29 then "green"
          else if float_ge x 20 then "lightgreen"
          else if float_ge x 15 then "yellow"
          else if float_ge x 10 then "orange"
          else if float_ge x 5 then "red"
          else "darkred")
  end.

(** ** The markers of [main] in visualizer.py

    [key in df] for the frame built from a list of dictionaries: the key is
    a column when some dictionary has it. *)
Definition in_columns (key_name : string) (df : list merged) : bool :=
  existsb (fun r => match get key_name r with Some _ => true | None => false end) df.

(** [row[key]] for a row of that frame: NaN where the row's dictionary lacks
    a key that is a column, KeyError where no dictionary has it. *)
Definition getitem (df : list merged) (row : merged) (key_name : string)
    : result value :=
  match get key_name row with
  | Some v => Ok v
  | None => if in_columns key_name df then Ok (Cell NaN) else Raise
  end.

Definition hasBitrates (df : list merged) : bool :=
  in_columns "wireless_rxrate" df && in_columns "wireless_txrate" df.

(** The [color] argument of the CircleMarker [main] draws for [row]. *)
Definition marker_color (df : list merged) (row : merged) : result string :=
  if hasBitrates df then
    rxrate_min <- getitem df row "wireless_rxrate_min" ;;
    bitrate_color rxrate_min
  else
    signal_mean <- getitem df row "wireless_signal" ;;
    noise_mean <- getitem df row "wireless_noisef" ;;
    relative_signal_level_color signal_mean noise_mean.

End Colours.

(** From the worst colour to the best; black and gray stand apart. *)
Definition colour_rank (colour : string) : nat :=
  if String.eqb colour "red" then 1
  else if String.eqb colour "orange" then 2
  else if String.eqb colour "yellow" then 3
  else if String.eqb colour "lightgreen" then 4
  else if String.eqb colour "green" then 5
  else 0.

(** The frame of one record that [preprocess_data] builds from the window
    whose only sample lacks the signal level. *)
Definition missing_window_frame : list merged :=
  [ record_with (sample_at 0 10%Q NaN (Num (-60))) []
      NaN NaN (Num (-90)) (Num (-90)) (Num 30) (Num 30) (Num 40) (Num 40)
      NaN (Num (-90 / 1)) (Num (-60 / 1)) (Num (20 / 1)) (Num (100 / 1))
      (Num (90 / 1)) (Num (30 / 1)) (Num (40 / 1)) ].

(** ** Walking a directory: [main] of visualizer2.py, generatelinks.py

    A path is a string of code points below 256.  The file system below a
    path is a tree: a regular file, a directory with its entries in the
    order [os.scandir] yields them, or something that is neither (a fifo, a
    dangling link). *)

Inductive node : Type :=
| RegularFile
| Directory (entries : dir_entries)
| Special
with dir_entries : Type :=
| no_entries
| dir_entry (name : string) (n : node) (rest : dir_entries).

Definition is_dot (c : ascii) : bool := Ascii.eqb c "."%char.

Fixpoint has_dot (s : string) : bool :=
  match s with
  | EmptyString => false
  | String c s' => is_dot c || has_dot s'
  end.

(** [s.split('.')[-1]] *)
Fixpoint after_last_dot (s : string) : string :=
  match s with
  | EmptyString => EmptyString
  | String c s' =>
      if has_dot s' then after_last_dot s'
      else if is_dot c then s'
      else s
  end.

(** The characters [str.strip()] removes. *)
Definition isspace (c : ascii) : bool :=
  let n := N_of_ascii c in
  ((9 <=? n) && (n <=? 13) || (28 <=? n) && (n <=? 32) ||
   (n =? 133) || (n =? 160))%N.

Fixpoint lstrip (s : string) : string :=
  match s with
  | EmptyString => EmptyString
  | String c s' => if isspace c then lstrip s' else s
  end.

Fixpoint rstrip (s : string) : string :=
  match s with
  | EmptyString => EmptyString
  | String c s' =>
      match rstrip s' with
      | EmptyString => if isspace c then EmptyString else String c EmptyString
      | r => String c r
      end
  end.

Definition strip (s : string) : string := rstrip (lstrip s).

(** [path.split('.')[-1].strip()] *)
Definition extension (path : string) : string := strip (after_last_dot path).

Fixpoint ends_with_slash (s : string) : bool :=
  match s with
  | EmptyString => false
  | String c EmptyString => Ascii.eqb c "/"%char
  | String _ s' => ends_with_slash s'
  end.

(** [os.path.join(dir, name)], which is [f.path] for an entry [f] of
    [os.scandir(dir)]. *)
Definition path_join (dir name : string) : string :=
  match name with
  | String "/"%char _ => name
  | _ =>
      match dir with
      | EmptyString => name
      | _ =>
          if ends_with_slash dir then String.append dir name
          else String.append dir (String "/"%char name)
      end
  end.

(** A run of [generate_map(csv_file, output_html)] that [main] starts. *)
Record call : Type := GenerateMap {
  csv_file : string;
  output_html : string
}.

(** What a walk has done, and whether it came to its end ([true]) or was
    cut short by an exception ([false]). *)
Definition walk (A : Type) : Type := (list A * bool)%type.

Definition andThen {A} (first second : walk A) : walk A :=
  if snd first then (fst first ++ fst second, snd second) else first.

Section Visualizer2Main.

(** Whether [generate_map] returns on a pair of paths. *)
Variable generate_map_returns : string -> string -> bool.

Definition generate_map (csv_path output_path : string) : walk call :=
  ([GenerateMap csv_path output_path], generate_map_returns csv_path output_path).

(** [main(csv_path, output_path)] of visualizer2.py, on the tree [n] found at
    [csv_path]. *)
Fixpoint walk_maps (csv_path output_path : string) (n : node) : walk call :=
  match n with
  | Directory entries => scan_maps csv_path entries
  | RegularFile | Special => generate_map csv_path output_path
  end
with scan_maps (dir : string) (entries : dir_entries) : walk call :=
  match entries with
  | no_entries => ([], true)
  | dir_entry name n rest =>
      let path := path_join dir name in
      andThen
        match n with
        | RegularFile =>
            if String.eqb (extension path) "csv"
            then generate_map path (String.append path ".html")
            else ([], true)
        | Directory _ | Special => walk_maps path path n
        end
        (scan_maps dir rest)
  end.

End Visualizer2Main.

(** The double quote character, code 34. *)
Definition double_quote : string := String (ascii_of_nat 34) EmptyString.

(** The line printed for an html file: an anchor with the file's path as
    target and its name as text. *)
Definition link (path name : string) : string :=
  String.append "<a href="
    (String.append double_quote
       (String.append path
          (String.append double_quote
             (String.append ">" (String.append name "</a>"))))).

Definition searching (dir : string) : string :=
  String.append "Searching directory: " dir.

(** [printLinks(dir)] of generatelinks.py, on the tree [n] found at [dir]:
    the lines printed.  [os.scandir] raises on what is not a directory. *)
Fixpoint printLinks (dir : string) (n : node) : walk string :=
  match n with
  | Directory entries =>
      andThen ([searching dir], true) (scan_links dir entries)
  | RegularFile | Special => ([searching dir], false)
  end
with scan_links (dir : string) (entries : dir_entries) : walk string :=
  match entries with
  | no_entries => ([], true)
  | dir_entry name n rest =>
      let path := path_join dir name in
      andThen
        match n with
        | RegularFile =>
            if String.eqb (extension path) "html"
            then ([link path name], true)
            else ([], true)
        | Directory _ | Special => printLinks path n
        end
        (scan_links dir rest)
  end.

(** No entry below is anything but a regular file or a directory. *)
Fixpoint regular (n : node) : bool :=
  match n with
  | RegularFile => true
  | Directory entries => regular_entries entries
  | Special => false
  end
with regular_entries (entries : dir_entries) : bool :=
  match entries with
  | no_entries => true
  | dir_entry _ n rest => regular n && regular_entries rest
  end.

(** The regular files below a directory, by path, in walking order. *)
Fixpoint files_below (dir : string) (entries : dir_entries) : list string :=
  match entries with
  | no_entries => []
  | dir_entry name n rest =>
      let path := path_join dir name in
      match n with
      | RegularFile => [path]
      | Directory sub => files_below path sub
      | Special => []
      end ++ files_below dir rest
  end.

(** * Properties *)

(** ** The result monad *)

Lemma bind_Ok_r {A} (c : result A) : (x <- c ;; Ok x) = c.
Proof. destruct c; reflexivity. Qed.

Lemma mapM_Ok {A} (l : list A) : mapM (@Ok A) l = Ok l.
Proof.
  induction l as [|x l IH]; simpl; [reflexivity|].
  rewrite IH. reflexivity.
Qed.

Lemma mapM_app {A B} (f : A -> result B) (l1 l2 : list A) :
  mapM f (l1 ++ l2) =
  (ys1 <- mapM f l1 ;; ys2 <- mapM f l2 ;; Ok (ys1 ++ ys2)).
Proof.
  induction l1 as [|x l1 IH]; simpl.
  - rewrite bind_Ok_r. reflexivity.
  - destruct (f x) as [y|]; simpl; [|reflexivity].
    rewrite IH.
    destruct (mapM f l1) as [ys1|]; simpl; [|reflexivity].
    destruct (mapM f l2) as [ys2|]; reflexivity.
Qed.

Lemma mapM_length {A B} (f : A -> result B) (l : list A) (ys : list B) :
  mapM f l = Ok ys -> List.length ys = List.length l.
Proof.
  revert ys. induction l as [|x l IH]; simpl; intros ys E.
  - injection E as <-. reflexivity.
  - destruct (f x) as [y|]; simpl in E; [|discriminate].
    destruct (mapM f l) as [ys'|]; simpl in E; [|discriminate].
    injection E as <-. simpl. f_equal. apply IH. reflexivity.
Qed.

(** ** The loop over the rows of a group *)

Lemma Timestamp_sub_Ok (a b elapsed : Z) :
  Timestamp_sub a b = Ok elapsed -> elapsed = (a - b)%Z.
Proof.
  unfold Timestamp_sub. destruct (_ && _); [|discriminate].
  intros [= <-]. reflexivity.
Qed.

Lemma Timestamp_sub_fits (a b : Z) :
  (Z.abs (a - b) < 9223372036854775808)%Z -> Timestamp_sub a b = Ok (a - b)%Z.
Proof.
  intros F. unfold Timestamp_sub.
  replace (_ && _) with true; [reflexivity|].
  symmetry. apply andb_true_iff. split; apply Z.ltb_lt; lia.
Qed.

Lemma timedeltas_fit_incl (l l' : list sample) :
  incl l' l -> timedeltas_fit l -> timedeltas_fit l'.
Proof. intros I F a b Ha Hb. apply F; apply I; assumption. Qed.

Lemma timedeltas_fit_Permutation (l l' : list sample) :
  Permutation l l' -> timedeltas_fit l -> timedeltas_fit l'.
Proof.
  intros P. apply timedeltas_fit_incl. intros x Hx.
  apply (Permutation_in _ (Permutation_sym P) Hx).
Qed.

Section LoopFacts.

Import Visualizer.

(** Run with [emit := Ok], the loop, when it returns, has computed the
    windows of the specification's windower. *)
Lemma loop_windower (l : list sample) :
  forall acc anchor w0 w st,
    foldM (loop_body (@Ok _)) l (mkLoop acc (w0 :: w) (Some anchor)) = Ok st ->
    current_bucket st <> [] /\
    merged_rows st ++ [current_bucket st] =
      acc ++ windower_from anchor (w0 :: w) l.
Proof.
  induction l as [|r l IH]; intros acc anchor w0 w st.
  - intros [= <-]. simpl. split; [discriminate|reflexivity].
  - cbn [foldM windower_from]. unfold loop_body at 1.
    cbn [current_bucket bucket_start_time merged_rows].
    destruct (Timestamp_sub (datetime r) anchor) as [elapsed|] eqn:T;
      cbn [bind]; [|discriminate].
    apply Timestamp_sub_Ok in T. subst elapsed. fold threshold.
    destruct (datetime r - anchor <=? threshold)%Z; cbn [bind].
    + apply (IH acc anchor w0 (w ++ [r])).
    + intros E. destruct (IH _ _ _ _ _ E) as [Hne Hst].
      split; [exact Hne|]. rewrite Hst, <- app_assoc. reflexivity.
Qed.

(** The loop returns when the differences it takes are Timedeltas. *)
Lemma loop_returns (l : list sample) :
  forall acc x w0 w,
    timedeltas_fit (x :: l) ->
    exists st,
      foldM (loop_body (@Ok _)) l (mkLoop acc (w0 :: w) (Some (datetime x))) = Ok st.
Proof.
  induction l as [|r l IH]; intros acc x w0 w F.
  - eexists. reflexivity.
  - cbn [foldM]. unfold loop_body at 1.
    cbn [current_bucket bucket_start_time merged_rows].
    rewrite Timestamp_sub_fits
      by (apply F; [right; left; reflexivity|left; reflexivity]).
    cbn [bind].
    destruct (datetime r - datetime x <=? timedelta MERGE_WINDOW_SECONDS)%Z;
      cbn [bind].
    + apply (IH acc x w0 (w ++ [r])).
      apply (timedeltas_fit_incl (l := x :: r :: l)); [|exact F].
      intros y [<-|Hy]; [left; reflexivity|right; right; exact Hy].
    + apply (IH _ r r []).
      apply (timedeltas_fit_incl (l := x :: r :: l)); [|exact F].
      intros y Hy. right. exact Hy.
Qed.

(** Windows already emitted do not influence the rest of the loop. *)
Lemma foldM_loop_shift (l : list sample) :
  forall (acc0 acc : list (list sample)) b s,
    foldM (loop_body (@Ok _)) l (mkLoop (acc0 ++ acc) b s) =
    (st <- foldM (loop_body (@Ok _)) l (mkLoop acc b s) ;;
     Ok (mkLoop (acc0 ++ merged_rows st) (current_bucket st)
           (bucket_start_time st))).
Proof.
  induction l as [|r l IH]; intros acc0 acc b s; [reflexivity|].
  cbn [foldM]. unfold loop_body at 1 3.
  cbn [current_bucket bucket_start_time merged_rows].
  destruct b as [|b0 b].
  - cbn [bind]. apply IH.
  - destruct s as [start|]; [|reflexivity].
    destruct (Timestamp_sub (datetime r) start) as [elapsed|]; cbn [bind];
      [|reflexivity].
    destruct (elapsed <=? timedelta MERGE_WINDOW_SECONDS)%Z; cbn [bind].
    + apply IH.
    + rewrite <- app_assoc. apply IH.
Qed.

(** With any reducer, the loop reduces the windows it would emit. *)
Lemma foldM_loop_emit {A} (emit : list sample -> result A) (l : list sample) :
  forall acc b s,
    foldM (loop_body emit) l (mkLoop acc b s) =
    (st <- foldM (loop_body (@Ok _)) l (mkLoop [] b s) ;;
     ms <- mapM emit (merged_rows st) ;;
     Ok (mkLoop (acc ++ ms) (current_bucket st) (bucket_start_time st))).
Proof.
  induction l as [|r l IH]; intros acc b s.
  - simpl. rewrite app_nil_r. reflexivity.
  - cbn [foldM]. unfold loop_body at 1 3.
    cbn [current_bucket bucket_start_time merged_rows].
    destruct b as [|b0 b].
    + cbn [bind]. apply IH.
    + destruct s as [start|]; [|reflexivity].
      destruct (Timestamp_sub (datetime r) start) as [elapsed|]; cbn [bind];
        [|reflexivity].
      destruct (elapsed <=? timedelta MERGE_WINDOW_SECONDS)%Z; cbn [bind].
      * apply IH.
      * change ([] ++ [b0 :: b]) with ([b0 :: b] ++ @nil (list sample)).
        rewrite foldM_loop_shift.
        destruct (emit (b0 :: b)) as [m|] eqn:Em; cbn [bind].
        -- rewrite IH.
           destruct (foldM (loop_body (@Ok _)) l (mkLoop [] [r] (Some (datetime r))))
             as [st|]; cbn [bind]; [|reflexivity].
           cbn [merged_rows current_bucket bucket_start_time app mapM].
           rewrite Em. cbn [bind].
           destruct (mapM emit (merged_rows st)) as [ms|]; cbn [bind]; [|reflexivity].
           rewrite <- app_assoc. reflexivity.
        -- destruct (foldM (loop_body (@Ok _)) l (mkLoop [] [r] (Some (datetime r))))
             as [st|]; cbn [bind]; [|reflexivity].
           cbn [merged_rows app mapM]. rewrite Em. reflexivity.
Qed.

Context `{Pandas}.

(** The windows of a group, when the loop returns, are those of the
    windower on the sorted group. *)
Lemma windows_windower (group : list sample) (ws : list (list sample)) :
  windows group = Ok ws -> ws = windower (sort_values_datetime group).
Proof.
  unfold windows, merge_group.
  destruct (sort_values_datetime group) as [|r l]; [intros [= <-]; reflexivity|].
  cbn [foldM]. unfold loop_body at 1. cbn [current_bucket merged_rows bind].
  destruct (foldM (loop_body (@Ok _)) l (mkLoop [] [r] (Some (datetime r))))
    as [st|] eqn:E; cbn [bind]; [|discriminate].
  destruct (loop_windower _ _ _ _ _ E) as [Hne Hst].
  cbn [windower app] in *.
  destruct (current_bucket st) as [|c cs]; [contradiction|].
  cbn [bind]. intros [= <-]. exact Hst.
Qed.

(** The loop returns on a group whose timestamps are less than 2^63
    nanoseconds apart. *)
Lemma windows_returns (group : list sample) :
  timedeltas_fit group ->
  windows group = Ok (windower (sort_values_datetime group)).
Proof.
  intros F.
  assert (R : exists ws, windows group = Ok ws).
  { apply (timedeltas_fit_Permutation
             (Permutation_sym (sort_group_Permutation group))) in F.
    unfold windows, merge_group.
    destruct (sort_values_datetime group) as [|r l]; [eexists; reflexivity|].
    cbn [foldM]. unfold loop_body at 1. cbn [current_bucket merged_rows bind].
    destruct (@loop_returns l [] r r [] F) as [st E]. rewrite E.
    cbn [bind]. destruct (current_bucket st); eexists; reflexivity. }
  destruct R as [ws E]. rewrite E. f_equal. apply windows_windower, E.
Qed.

(** [merge_group] reduces the windows of the group, in order. *)
Lemma merge_group_windows {A} (emit : list sample -> result A)
    (acc : list A) (group : list sample) :
  merge_group emit acc group =
  (ws <- windows group ;; ms <- mapM emit ws ;; Ok (acc ++ ms)).
Proof.
  unfold windows, merge_group.
  rewrite foldM_loop_emit.
  destruct (foldM (loop_body (@Ok _)) (sort_values_datetime group) (mkLoop [] [] None))
    as [st|]; cbn [bind]; [|reflexivity].
  destruct (current_bucket st) as [|c cs]; cbn [bind app].
  - destruct (mapM emit (merged_rows st)); reflexivity.
  - rewrite mapM_app. cbn [mapM].
    destruct (mapM emit (merged_rows st)) as [ms|];
      cbn [bind current_bucket merged_rows]; [|reflexivity].
    destruct (emit (c :: cs)) as [m|]; cbn [bind]; [|reflexivity].
    rewrite app_assoc. reflexivity.
Qed.

Lemma foldM_merge_group {A} (emit : list sample -> result A)
    (groups : list (key * list sample)) :
  forall acc,
    foldM (fun acc g => merge_group emit acc (snd g)) groups acc =
    (wss <- mapM (fun g => windows (snd g)) groups ;;
     ms <- mapM emit (List.concat wss) ;;
     Ok (acc ++ ms)).
Proof.
  induction groups as [|g groups IH]; intros acc.
  - simpl. rewrite app_nil_r. reflexivity.
  - cbn [foldM mapM]. rewrite merge_group_windows.
    destruct (windows (snd g)) as [ws|]; cbn [bind]; [|reflexivity].
    destruct (mapM emit ws) as [ms1|] eqn:E1; cbn [bind].
    + rewrite IH.
      destruct (mapM (fun g => windows (snd g)) groups) as [wss|]; cbn [bind];
        [|reflexivity].
      cbn [List.concat]. rewrite mapM_app, E1. cbn [bind].
      destruct (mapM emit (List.concat wss)) as [ms2|]; cbn [bind]; [|reflexivity].
      rewrite app_assoc. reflexivity.
    + destruct (mapM (fun g => windows (snd g)) groups) as [wss|]; cbn [bind];
        [|reflexivity].
      cbn [List.concat]. rewrite mapM_app, E1. reflexivity.
Qed.

Lemma mapM_windows_Ok (groups : list (key * list sample))
    (wss : list (list (list sample))) :
  mapM (fun g => windows (snd g)) groups = Ok wss ->
  List.concat wss = all_windows groups.
Proof.
  revert wss. induction groups as [|g groups IH]; intros wss E; cbn [mapM] in E.
  - injection E as <-. reflexivity.
  - destruct (windows (snd g)) as [ws|] eqn:Ew; cbn [bind] in E; [|discriminate].
    destruct (mapM (fun g => windows (snd g)) groups) as [wss'|];
      cbn [bind] in E; [|discriminate].
    injection E as <-. cbn [List.concat all_windows flat_map].
    rewrite (windows_windower _ Ew). f_equal. apply IH. reflexivity.
Qed.

Lemma mapM_windows_returns (groups : list (key * list sample)) :
  Forall (fun g => timedeltas_fit (snd g)) groups ->
  exists wss, mapM (fun g => windows (snd g)) groups = Ok wss.
Proof.
  induction 1 as [|g groups Hg _ IH]; [eexists; reflexivity|].
  destruct IH as [wss E]. cbn [mapM]. rewrite (windows_returns Hg), E.
  eexists. reflexivity.
Qed.

(** When [merge_groups] returns, it has reduced all the windows. *)
Lemma merge_groups_Ok {A} (emit : list sample -> result A)
    (groups : list (key * list sample)) (out : list A) :
  merge_groups emit groups = Ok out ->
  mapM emit (all_windows groups) = Ok out.
Proof.
  unfold merge_groups. rewrite foldM_merge_group.
  destruct (mapM (fun g => windows (snd g)) groups) as [wss|] eqn:E;
    cbn [bind]; [|discriminate].
  rewrite (mapM_windows_Ok _ E).
  destruct (mapM emit (all_windows groups)); cbn [bind]; [|discriminate].
  intros [= <-]. reflexivity.
Qed.

(** On groups whose timestamps are less than 2^63 nanoseconds apart
    [merge_groups] is the reduction of all the windows. *)
Lemma merge_groups_windows {A} (emit : list sample -> result A)
    (groups : list (key * list sample)) :
  Forall (fun g => timedeltas_fit (snd g)) groups ->
  merge_groups emit groups = mapM emit (all_windows groups).
Proof.
  intros F. unfold merge_groups. rewrite foldM_merge_group.
  destruct (mapM_windows_returns F) as [wss E]. rewrite E. cbn [bind].
  rewrite (mapM_windows_Ok _ E).
  destruct (mapM emit (all_windows groups)); reflexivity.
Qed.

Lemma emitted_windows_all (df : list raw_row) (ws : list (list sample)) :
  emitted_windows df = Ok ws -> ws = all_windows (groups_of df).
Proof.
  unfold emitted_windows. intros E. apply merge_groups_Ok in E.
  rewrite mapM_Ok in E. congruence.
Qed.

End LoopFacts.

(** ** The windower *)

Lemma concat_windower_from (l : list sample) :
  forall anchor w, List.concat (windower_from anchor w l) = w ++ l.
Proof.
  induction l as [|r l IH]; intros anchor w; cbn [windower_from].
  - simpl. rewrite app_nil_r. reflexivity.
  - destruct (datetime r - anchor <=? threshold)%Z.
    + rewrite IH, <- app_assoc. reflexivity.
    + cbn [List.concat]. rewrite IH. reflexivity.
Qed.

Lemma concat_windower (l : list sample) : List.concat (windower l) = l.
Proof.
  destruct l as [|r l]; [reflexivity|].
  cbn [windower]. rewrite concat_windower_from. reflexivity.
Qed.

Lemma windower_from_spec (l : list sample) :
  forall a w,
    Forall (fun r => (datetime r - datetime a <= threshold)%Z) w ->
    Forall anchored (windower_from (datetime a) (a :: w) l) /\
    separated (windower_from (datetime a) (a :: w) l) /\
    exists w' rest, windower_from (datetime a) (a :: w) l = (a :: w') :: rest.
Proof.
  induction l as [|r l IH]; intros a w Hw; cbn [windower_from].
  - split; [|split].
    + constructor; [exact Hw|constructor].
    + exact I.
    + eauto.
  - destruct (datetime r - datetime a <=? threshold)%Z eqn:E.
    + apply Z.leb_le in E.
      apply (IH a (w ++ [r])).
      apply Forall_app. split; [exact Hw|]. constructor; [exact E|constructor].
    + apply Z.leb_gt in E.
      destruct (IH r [] (Forall_nil _)) as (Ha & Hs & w' & rest & Eq).
      unfold sample in *. rewrite Eq in Ha, Hs |- *. split; [|split].
      * constructor; [exact Hw|exact Ha].
      * cbn [separated]. split; [lia|exact Hs].
      * eauto.
Qed.

Lemma windower_anchored (l : list sample) : Forall anchored (windower l).
Proof.
  destruct l as [|r l]; [constructor|].
  apply (windower_from_spec l r (Forall_nil _)).
Qed.


(** ** Grouping *)

Lemma insert_group_Permutation (r : sample) (groups : list (key * list sample)) :
  Permutation (flat_map snd (insert_group r groups)) (r :: flat_map snd groups).
Proof.
  induction groups as [|[k g] groups IH]; cbn [insert_group flat_map snd].
  - reflexivity.
  - destruct (key_compare (key_of r) k); cbn [flat_map snd].
    + rewrite <- app_assoc. cbn [app].
      symmetry. apply (Permutation_middle g (flat_map snd groups) r).
    + reflexivity.
    + rewrite IH. symmetry. apply (Permutation_middle g (flat_map snd groups) r).
Qed.

Lemma groupby_rows_Permutation (df : list sample) :
  Permutation (flat_map snd (groupby_rows df)) df.
Proof.
  unfold groupby_rows.
  assert (G : forall groups,
            Permutation
              (flat_map snd (fold_left (fun gs r => insert_group r gs) df groups))
              (flat_map snd groups ++ df)).
  { induction df as [|r df IH]; intros groups; cbn [fold_left].
    - rewrite app_nil_r. reflexivity.
    - rewrite IH, insert_group_Permutation.
      apply (Permutation_middle (flat_map snd groups) df r). }
  apply (G []).
Qed.

Lemma all_windows_Permutation `{Pandas} (groups : list (key * list sample)) :
  Permutation (List.concat (all_windows groups)) (flat_map snd groups).
Proof.
  induction groups as [|g groups IH]; cbn [all_windows flat_map]; [reflexivity|].
  rewrite concat_app, concat_windower. fold (all_windows groups).
  rewrite IH, sort_group_Permutation. reflexivity.
Qed.

(** Every valid sample is in exactly one window. *)
Lemma all_windows_valid_samples `{Pandas} (df : list raw_row) :
  Permutation (List.concat (all_windows (groups_of df))) (valid_samples df).
Proof.
  unfold groups_of.
  rewrite all_windows_Permutation, groupby_rows_Permutation.
  apply sort_frame_Permutation.
Qed.

(** The samples of a group are valid samples of the frame. *)
Lemma groups_of_valid_samples `{Pandas} (df : list raw_row)
    (g : key * list sample) (x : sample) :
  In g (groups_of df) -> In x (snd g) -> In x (valid_samples df).
Proof.
  intros Hg Hx.
  apply (Permutation_in _ (sort_frame_Permutation (valid_samples df))).
  apply (Permutation_in _ (groupby_rows_Permutation _)).
  apply in_flat_map. exists g. split; assumption.
Qed.

Lemma groups_of_fit `{Pandas} (df : list raw_row) :
  timedeltas_fit (valid_samples df) ->
  Forall (fun g => timedeltas_fit (snd g)) (groups_of df).
Proof.
  intros F. apply Forall_forall. intros g Hg.
  apply (timedeltas_fit_incl (l := valid_samples df)); [|exact F].
  intros x Hx. apply (groups_of_valid_samples df g x Hg Hx).
Qed.

(** ** The reducer *)

Ltac invert_binds E :=
  repeat match type of E with
         | bind ?c _ = _ => destruct c; cbn [bind] in E; [|discriminate E]
         end.

Lemma merge_bucket_samples_merged (w : list sample) (r : merged) :
  Visualizer.merge_bucket w = Ok r -> samples_merged r = List.length w.
Proof.
  unfold Visualizer.merge_bucket. destruct w as [|first rest]; [discriminate|].
  intros E. invert_binds E. injection E as <-. reflexivity.
Qed.

Lemma mapM_merge_bucket_total (ws : list (list sample)) (out : list merged) :
  mapM Visualizer.merge_bucket ws = Ok out ->
  total_samples_merged out = List.length (List.concat ws).
Proof.
  revert out. induction ws as [|w ws IH]; cbn [mapM]; intros out E.
  - injection E as <-. reflexivity.
  - destruct (Visualizer.merge_bucket w) as [r|] eqn:Er; cbn [bind] in E; [|discriminate].
    destruct (mapM Visualizer.merge_bucket ws) as [rs|]; cbn [bind] in E; [|discriminate].
    injection E as <-. cbn [total_samples_merged fold_right List.concat].
    rewrite length_app, (merge_bucket_samples_merged w Er).
    f_equal. apply IH. reflexivity.
Qed.

(** ** The store *)

Lemma nth_error_last (h : heap) (d : DataFrame) :
  nth_error (h ++ [d]) (List.length h) = Some d.
Proof.
  rewrite nth_error_app2 by lia. rewrite Nat.sub_diag. reflexivity.
Qed.

Lemma store_last (h : heap) (d d' : DataFrame) :
  store (List.length h) d' (h ++ [d]) = h ++ [d'].
Proof.
  induction h as [|x h IH]; simpl; [reflexivity|].
  rewrite IH. reflexivity.
Qed.

(** The two files hold the same aggregation. *)
Lemma merge_bucket_same (rows : list sample) :
  Visualizer.merge_bucket rows = Visualizer2.merge_bucket rows.
Proof. reflexivity. Qed.

Lemma preprocess_data_same `{Pandas} (df : ref) (h : heap) :
  Visualizer.preprocess_data df h = Visualizer2.preprocess_data df h.
Proof. reflexivity. Qed.

(** [preprocess_data] on a frame as read: what it returns and the store it
    leaves. *)
Lemma preprocess_data_run `{Pandas} (h : heap) (df : ref) (rows : list raw_row) :
  nth_error h df = Some (RawFrame rows) ->
  Visualizer.preprocess_data df h =
  match Visualizer.merge_groups Visualizer.merge_bucket (groups_of rows) with
  | Ok out =>
      (Ok (List.length h + 3)%nat,
       h ++ [ParsedFrame (map parse_row rows);
             Frame (valid_samples rows);
             Frame (sort_values_lat_lon_datetime (valid_samples rows));
             MergedFrame out])
  | Raise =>
      (Raise,
       h ++ [ParsedFrame (map parse_row rows);
             Frame (valid_samples rows);
             Frame (sort_values_lat_lon_datetime (valid_samples rows))])
  end.
Proof.
  intros Hdf.
  unfold Visualizer.preprocess_data, bindM, DataFrame_copy.
  rewrite Hdf. unfold alloc at 1.
  unfold assign_datetime. rewrite nth_error_last, store_last.
  unfold dropna. rewrite nth_error_last. unfold alloc at 1.
  unfold sort_values. rewrite nth_error_last. unfold alloc at 1.
  unfold groupby. rewrite nth_error_last.
  unfold lift, new_DataFrame, alloc.
  fold (valid_samples rows). fold (groups_of rows).
  destruct (Visualizer.merge_groups Visualizer.merge_bucket (groups_of rows)) as [out|].
  - f_equal.
    + f_equal. rewrite !length_app. simpl. lia.
    + rewrite <- !app_assoc. reflexivity.
  - f_equal. rewrite <- !app_assoc. reflexivity.
Qed.

(** [preprocess_data] only adds frames to the store. *)
Lemma preprocess_data_extends `{Pandas} (h : heap) (df : ref) :
  exists new_frames, snd (Visualizer.preprocess_data df h) = h ++ new_frames.
Proof.
  destruct (nth_error h df) as [d|] eqn:Hdf.
  - destruct d as [rows|rows|rows|rows].
    1: { rewrite (preprocess_data_run h df Hdf).
         destruct (Visualizer.merge_groups _ _); eexists; reflexivity. }
    all: eexists;
      unfold Visualizer.preprocess_data, bindM, DataFrame_copy;
      rewrite Hdf; unfold alloc at 1; unfold assign_datetime;
      rewrite nth_error_last; reflexivity.
  - exists []. unfold Visualizer.preprocess_data, bindM, DataFrame_copy.
    rewrite Hdf, app_nil_r. reflexivity.
Qed.

(** ** Sorting *)

Section InsertionSortFacts.

Context {A : Type} (leb : A -> A -> bool) (R : A -> A -> Prop).
Hypothesis leb_true : forall a b, leb a b = true -> R a b.
Hypothesis leb_false : forall a b, leb a b = false -> R b a.

Lemma insert_sorted_Permutation (x : A) (l : list A) :
  Permutation (insert_sorted leb x l) (x :: l).
Proof.
  induction l as [|y l IH]; cbn [insert_sorted]; [reflexivity|].
  destruct (leb x y); [reflexivity|].
  rewrite IH. apply perm_swap.
Qed.

Lemma insertion_sort_Permutation (l : list A) :
  Permutation (insertion_sort leb l) l.
Proof.
  induction l as [|x l IH]; cbn [insertion_sort fold_right]; [reflexivity|].
  rewrite insert_sorted_Permutation. apply perm_skip, IH.
Qed.

Lemma insert_sorted_Sorted (x : A) (l : list A) :
  Sorted R l -> Sorted R (insert_sorted leb x l).
Proof.
  induction l as [|y l IH]; cbn [insert_sorted]; intros S.
  - repeat constructor.
  - destruct (leb x y) eqn:E.
    + constructor; [exact S|]. constructor. apply leb_true, E.
    + inversion S as [|? ? S' Hd]; subst.
      constructor; [apply IH, S'|].
      destruct l as [|z l]; cbn [insert_sorted].
      * constructor. apply leb_false, E.
      * destruct (leb x z); constructor.
        -- apply leb_false, E.
        -- inversion Hd; assumption.
Qed.

Lemma insertion_sort_Sorted (l : list A) : Sorted R (insertion_sort leb l).
Proof.
  induction l as [|x l IH]; cbn [insertion_sort fold_right]; [constructor|].
  apply insert_sorted_Sorted, IH.
Qed.

End InsertionSortFacts.

Lemma key_compare_antisym (k1 k2 : key) :
  key_compare k2 k1 = CompOpp (key_compare k1 k2).
Proof.
  unfold key_compare.
  rewrite <- (Qcompare_antisym (fst k1) (fst k2)).
  rewrite <- (Qcompare_antisym (snd k1) (snd k2)).
  destruct (fst k1 ?= fst k2); reflexivity.
Qed.

Lemma frame_compare_antisym (a b : sample) :
  frame_compare b a = CompOpp (frame_compare a b).
Proof.
  unfold frame_compare.
  rewrite (key_compare_antisym (key_of a) (key_of b)).
  rewrite (Z.compare_antisym (datetime a) (datetime b)).
  destruct (key_compare (key_of a) (key_of b)); reflexivity.
Qed.

Lemma frame_leb_true (a b : sample) : frame_leb a b = true -> by_lat_lon_datetime a b.
Proof.
  unfold frame_leb, by_lat_lon_datetime.
  destruct (frame_compare a b); congruence.
Qed.

Lemma frame_leb_false (a b : sample) : frame_leb a b = false -> by_lat_lon_datetime b a.
Proof.
  unfold frame_leb, by_lat_lon_datetime. rewrite (frame_compare_antisym a b).
  destruct (frame_compare a b); simpl; congruence.
Qed.

Lemma datetime_leb_true (a b : sample) : datetime_leb a b = true -> by_datetime a b.
Proof. unfold datetime_leb, by_datetime. apply Z.leb_le. Qed.

Lemma datetime_leb_false (a b : sample) : datetime_leb a b = false -> by_datetime b a.
Proof. unfold datetime_leb, by_datetime. intros E. apply Z.leb_gt in E. lia. Qed.

(** pandas with a stable sort. *)
Definition stable_pandas : Pandas := {|
  to_datetime := epoch_nanoseconds;
  sort_values_lat_lon_datetime := insertion_sort frame_leb;
  sort_values_datetime := insertion_sort datetime_leb;
  sort_frame_Permutation := insertion_sort_Permutation frame_leb;
  sort_frame_Sorted := insertion_sort_Sorted frame_leb _ frame_leb_true frame_leb_false;
  sort_group_Permutation := insertion_sort_Permutation datetime_leb;
  sort_group_Sorted :=
    insertion_sort_Sorted datetime_leb _ datetime_leb_true datetime_leb_false
|}.

(** A list whose timestamps are pairwise distinct has one sorted
    rearrangement only. *)
Lemma Sorted_by_datetime_Forall (a : sample) (l : list sample) :
  Sorted by_datetime (a :: l) -> Forall (by_datetime a) l.
Proof.
  intros S. apply Sorted_StronglySorted in S.
  - inversion S; assumption.
  - intros x y z. unfold by_datetime. lia.
Qed.

Lemma sorted_rearrangement_unique (l1 : list sample) :
  forall l2,
    Permutation l1 l2 ->
    Sorted by_datetime l1 -> Sorted by_datetime l2 ->
    NoDup (map (@datetime _ _) l1) ->
    l1 = l2.
Proof.
  induction l1 as [|a l1 IH]; intros l2 P S1 S2 ND.
  - apply Permutation_nil in P. congruence.
  - destruct l2 as [|b l2].
    { symmetry in P. apply Permutation_nil in P. discriminate. }
    assert (E : a = b).
    { pose proof (Sorted_by_datetime_Forall S1) as F1.
      pose proof (Sorted_by_datetime_Forall S2) as F2.
      rewrite Forall_forall in F1, F2.
      assert (Ia : In a (b :: l2)) by (apply (Permutation_in _ P); left; reflexivity).
      assert (Ib : In b (a :: l1)).
      { apply (Permutation_in _ (Permutation_sym P)). left; reflexivity. }
      destruct Ib as [Eb|Ib]; [exact Eb|].
      destruct Ia as [Ea|Ia]; [symmetry; exact Ea|].
      exfalso.
      pose proof (F1 _ Ib) as Hab. pose proof (F2 _ Ia) as Hba.
      unfold by_datetime in Hab, Hba.
      inversion ND as [|? ? Hnotin _]; subst. apply Hnotin.
      replace (datetime a) with (datetime b) by lia.
      apply in_map, Ib. }
    subst b. f_equal. apply IH.
    + apply Permutation_cons_inv with a. exact P.
    + inversion S1; assumption.
    + inversion S2; assumption.
    + inversion ND; assumption.
Qed.

(** ** Reductions over a column *)

Lemma qmin_cases (a b : Q) : (qmin a b = a /\ a <= b)%Q \/ (qmin a b = b /\ b <= a)%Q.
Proof.
  unfold qmin. destruct (Qle_bool a b) eqn:E.
  - left. split; [reflexivity|]. apply Qle_bool_iff, E.
  - right. split; [reflexivity|]. apply Qlt_le_weak, Qnot_le_lt.
    intros L. apply Qle_bool_iff in L. congruence.
Qed.

Lemma qmax_cases (a b : Q) : (qmax a b = b /\ a <= b)%Q \/ (qmax a b = a /\ b <= a)%Q.
Proof.
  unfold qmax. destruct (Qle_bool a b) eqn:E.
  - left. split; [reflexivity|]. apply Qle_bool_iff, E.
  - right. split; [reflexivity|]. apply Qlt_le_weak, Qnot_le_lt.
    intros L. apply Qle_bool_iff in L. congruence.
Qed.

Lemma qmin_le (a b : Q) : (qmin a b <= a /\ qmin a b <= b)%Q.
Proof.
  destruct (qmin_cases a b) as [[-> L]|[-> L]]; split;
    first [apply Qle_refl | exact L].
Qed.

Lemma qmax_ge (a b : Q) : (a <= qmax a b /\ b <= qmax a b)%Q.
Proof.
  destruct (qmax_cases a b) as [[-> L]|[-> L]]; split;
    first [apply Qle_refl | exact L].
Qed.

Lemma fold_left_qmin (l : list Q) :
  forall x,
    In (fold_left qmin l x) (x :: l) /\
    Forall (fun y => fold_left qmin l x <= y)%Q (x :: l).
Proof.
  induction l as [|y l IH]; intros x; cbn [fold_left].
  - split; [left; reflexivity|]. constructor; [apply Qle_refl|constructor].
  - destruct (IH (qmin x y)) as [Hin Hle].
    inversion Hle as [|? ? Hm Hl]; subst.
    split.
    + destruct Hin as [E|Hin]; [|right; right; exact Hin].
      rewrite <- E. destruct (qmin_cases x y) as [[-> _]|[-> _]]; simpl; auto.
    + constructor; [|constructor; [|exact Hl]]; cbn beta;
        (eapply Qle_trans; [exact Hm|apply (qmin_le x y)]).
Qed.

Lemma fold_left_qmax (l : list Q) :
  forall x,
    In (fold_left qmax l x) (x :: l) /\
    Forall (fun y => y <= fold_left qmax l x)%Q (x :: l).
Proof.
  induction l as [|y l IH]; intros x; cbn [fold_left].
  - split; [left; reflexivity|]. constructor; [apply Qle_refl|constructor].
  - destruct (IH (qmax x y)) as [Hin Hle].
    inversion Hle as [|? ? Hm Hl]; subst.
    split.
    + destruct Hin as [E|Hin]; [|right; right; exact Hin].
      rewrite <- E. destruct (qmax_cases x y) as [[-> _]|[-> _]]; simpl; auto.
    + constructor; [|constructor; [|exact Hl]]; cbn beta;
        (eapply Qle_trans; [apply (qmax_ge x y)|exact Hm]).
Qed.

Lemma datetime_min_spec (rest : list Z) :
  forall first,
    In (datetime_min first rest) (first :: rest) /\
    Forall (fun t => datetime_min first rest <= t)%Z (first :: rest).
Proof.
  unfold datetime_min.
  induction rest as [|y l IH]; intros x; cbn [fold_left].
  - split; [left; reflexivity|]. constructor; [lia|constructor].
  - destruct (IH (Z.min x y)) as [Hin Hle].
    inversion Hle as [|? ? Hm Hl]; subst.
    split.
    + destruct Hin as [E|Hin]; [|right; right; exact Hin].
      rewrite <- E. destruct (Z.min_spec x y) as [[_ ->]|[_ ->]]; simpl; auto.
    + repeat constructor; try assumption; lia.
Qed.

(** On a column without text the three reductions return, and return the
    minimum, the maximum and the mean of the numbers of the column. *)
Lemma series_min_numeric (col : list cell) :
  existsb is_str col = false ->
  exists c, series_min col = Ok c /\ is_minimum c col.
Proof.
  intros E. unfold series_min, extremum. rewrite E.
  destruct (numbers col) as [|q qs] eqn:N; cbn [reduce].
  - exists NaN. split; [reflexivity|exact N].
  - eexists. split; [reflexivity|]. cbn [is_minimum]. rewrite N.
    apply fold_left_qmin.
Qed.

Lemma series_max_numeric (col : list cell) :
  existsb is_str col = false ->
  exists c, series_max col = Ok c /\ is_maximum c col.
Proof.
  intros E. unfold series_max, extremum. rewrite E.
  destruct (numbers col) as [|q qs] eqn:N; cbn [reduce].
  - exists NaN. split; [reflexivity|exact N].
  - eexists. split; [reflexivity|]. cbn [is_maximum]. rewrite N.
    apply fold_left_qmax.
Qed.

Lemma series_mean_numeric (col : list cell) :
  existsb is_str col = false ->
  exists c, series_mean col = Ok c /\ is_mean c col.
Proof.
  intros E. unfold series_mean. rewrite E.
  destruct (numbers col) as [|q qs] eqn:N.
  - exists NaN. split; [reflexivity|exact N].
  - eexists. split; [reflexivity|]. cbn [is_mean]. rewrite N.
    split; [discriminate|].
    rewrite Qmult_comm. apply Qmult_div_r.
    cbn [List.length]. rewrite Nat2Z.inj_succ.
    unfold Qeq. simpl. lia.
Qed.

Lemma series_mean_text (col : list cell) :
  existsb is_str col = true -> series_mean col = Raise.
Proof. intros E. unfold series_mean. rewrite E. reflexivity. Qed.

Lemma numeric_column (w : list sample) (m : metric) :
  numeric_window w -> existsb is_str (map (column m) w) = false.
Proof.
  intros Hw. induction Hw as [|r w Hr Hw IH]; cbn [map existsb]; [reflexivity|].
  rewrite (Hr m), IH. reflexivity.
Qed.

(** ** The record of a window without text *)

Tactic Notation "reduce_column"
    constr(lem) constr(f) constr(m) constr(Hw) ident(c) ident(P) :=
  let E := fresh "E" in
  destruct (lem (map f _) (numeric_column m Hw)) as (c & E & P);
  rewrite E; cbn [bind].

Lemma merge_bucket_numeric (first : sample) (rest : list sample) :
  numeric_window (first :: rest) ->
  exists smin smax nmin nmax tmax tmin rmax rmin sig noi rs txp dis cq txr rxr,
    Visualizer.merge_bucket (first :: rest) =
      Ok (record_with first rest smin smax nmin nmax tmax tmin rmax rmin
            sig noi rs txp dis cq txr rxr) /\
    (is_minimum smin (map (column signal) (first :: rest)) /\
     is_maximum smax (map (column signal) (first :: rest)) /\
     is_minimum nmin (map (column noise) (first :: rest)) /\
     is_maximum nmax (map (column noise) (first :: rest))) /\
    (is_maximum tmax (map (column txrate) (first :: rest)) /\
     is_minimum tmin (map (column txrate) (first :: rest)) /\
     is_maximum rmax (map (column rxrate) (first :: rest)) /\
     is_minimum rmin (map (column rxrate) (first :: rest))) /\
    (is_mean sig (map (column signal) (first :: rest)) /\
     is_mean noi (map (column noise) (first :: rest)) /\
     is_mean rs (map (column rssi) (first :: rest)) /\
     is_mean txp (map (column txpower) (first :: rest))) /\
    (is_mean dis (map (column distance) (first :: rest)) /\
     is_mean cq (map (column ccq) (first :: rest)) /\
     is_mean txr (map (column txrate) (first :: rest)) /\
     is_mean rxr (map (column rxrate) (first :: rest))).
Proof.
  intros Hw. unfold Visualizer.merge_bucket.
  reduce_column series_min_numeric (@wireless_signal Z Q) signal Hw smin P1.
  reduce_column series_max_numeric (@wireless_signal Z Q) signal Hw smax P2.
  reduce_column series_min_numeric (@wireless_noisef Z Q) noise Hw nmin P3.
  reduce_column series_max_numeric (@wireless_noisef Z Q) noise Hw nmax P4.
  reduce_column series_max_numeric (@wireless_txrate Z Q) txrate Hw tmax P5.
  reduce_column series_min_numeric (@wireless_txrate Z Q) txrate Hw tmin P6.
  reduce_column series_max_numeric (@wireless_rxrate Z Q) rxrate Hw rmax P7.
  reduce_column series_min_numeric (@wireless_rxrate Z Q) rxrate Hw rmin P8.
  reduce_column series_mean_numeric (@wireless_signal Z Q) signal Hw sig P9.
  reduce_column series_mean_numeric (@wireless_noisef Z Q) noise Hw noi P10.
  reduce_column series_mean_numeric (@wireless_rssi Z Q) rssi Hw rs P11.
  reduce_column series_mean_numeric (@wireless_txpower Z Q) txpower Hw txp P12.
  reduce_column series_mean_numeric (@wireless_distance Z Q) distance Hw dis P13.
  reduce_column series_mean_numeric (@wireless_ccq Z Q) ccq Hw cq P14.
  reduce_column series_mean_numeric (@wireless_txrate Z Q) txrate Hw txr P15.
  reduce_column series_mean_numeric (@wireless_rxrate Z Q) rxrate Hw rxr P16.
  exists smin, smax, nmin, nmax, tmax, tmin, rmax, rmin.
  exists sig, noi, rs, txp, dis, cq, txr, rxr.
  split; [reflexivity|]. repeat split; assumption.
Qed.

(** ** Groups and their keys *)

Definition same_coordinates (a b : sample) : Prop :=
  (latitude a == latitude b)%Q /\ (longitude a == longitude b)%Q.

Definition key_lt (k1 k2 : key) : Prop :=
  (fst k1 < fst k2)%Q \/ ((fst k1 == fst k2)%Q /\ (snd k1 < snd k2)%Q).

Lemma key_compare_Eq (k1 k2 : key) :
  key_compare k1 k2 = Eq <-> (fst k1 == fst k2)%Q /\ (snd k1 == snd k2)%Q.
Proof.
  unfold key_compare. rewrite !Qeq_alt.
  destruct (fst k1 ?= fst k2); intuition congruence.
Qed.

Lemma key_compare_Lt (k1 k2 : key) : key_compare k1 k2 = Lt <-> key_lt k1 k2.
Proof.
  unfold key_compare, key_lt. rewrite !Qlt_alt, Qeq_alt.
  destruct (fst k1 ?= fst k2); intuition congruence.
Qed.

Lemma key_lt_trans (k1 k2 k3 : key) : key_lt k1 k2 -> key_lt k2 k3 -> key_lt k1 k3.
Proof.
  unfold key_lt. intros [L1|[E1 L1]] [L2|[E2 L2]].
  - left. eapply Qlt_trans; eassumption.
  - left. rewrite <- E2. exact L1.
  - left. rewrite E1. exact L2.
  - right. split; [rewrite E1; exact E2|eapply Qlt_trans; eassumption].
Qed.

Lemma insert_group_homogeneous (r : sample) (groups : list (key * list sample)) :
  Forall (fun g => Forall (fun x => key_compare (key_of x) (fst g) = Eq) (snd g))
    groups ->
  Forall (fun g => Forall (fun x => key_compare (key_of x) (fst g) = Eq) (snd g))
    (insert_group r groups).
Proof.
  assert (Refl : key_compare (key_of r) (key_of r) = Eq).
  { apply key_compare_Eq. split; apply Qeq_refl. }
  induction groups as [|[k g] groups IH]; intros F; cbn [insert_group].
  - repeat constructor. exact Refl.
  - inversion F as [|? ? Hg Hgs]; subst. cbn [fst snd] in Hg.
    destruct (key_compare (key_of r) k) eqn:E.
    + constructor; [|exact Hgs]. cbn [fst snd].
      apply Forall_app. split; [exact Hg|]. repeat constructor. exact E.
    + constructor; [|exact F]. repeat constructor. exact Refl.
    + constructor; [exact Hg|]. apply IH, Hgs.
Qed.

Lemma insert_group_Sorted (r : sample) (groups : list (key * list sample)) :
  Sorted (fun g1 g2 => key_lt (fst g1) (fst g2)) groups ->
  Sorted (fun g1 g2 => key_lt (fst g1) (fst g2)) (insert_group r groups).
Proof.
  induction groups as [|[k g] groups IH]; intros S; cbn [insert_group].
  - repeat constructor.
  - inversion S as [|? ? S' Hd]; subst.
    destruct (key_compare (key_of r) k) eqn:E.
    + constructor; [exact S'|].
      destruct Hd; constructor; assumption.
    + constructor; [exact S|]. constructor. apply key_compare_Lt, E.
    + constructor; [apply IH, S'|].
      assert (Lt' : key_lt k (key_of r)).
      { apply key_compare_Lt. rewrite key_compare_antisym, E. reflexivity. }
      destruct groups as [|[k' g'] groups]; cbn [insert_group].
      * constructor. exact Lt'.
      * destruct (key_compare (key_of r) k'); constructor;
          first [exact Lt' | inversion Hd; assumption].
Qed.

Lemma insert_group_nonempty (r : sample) (groups : list (key * list sample)) :
  Forall (fun g => snd g <> []) groups ->
  Forall (fun g => snd g <> []) (insert_group r groups).
Proof.
  induction groups as [|[k g] groups IH]; intros F; cbn [insert_group].
  - repeat constructor. discriminate.
  - inversion F as [|? ? Hg Hgs]; subst.
    destruct (key_compare (key_of r) k).
    + constructor; [|exact Hgs]. cbn [snd]. destruct g; discriminate.
    + constructor; [discriminate|exact F].
    + constructor; [exact Hg|]. apply IH, Hgs.
Qed.

Lemma groupby_rows_invariant (df : list sample) :
  Forall (fun g => Forall (fun x => key_compare (key_of x) (fst g) = Eq) (snd g))
    (groupby_rows df) /\
  Sorted (fun g1 g2 => key_lt (fst g1) (fst g2)) (groupby_rows df) /\
  Forall (fun g => snd g <> []) (groupby_rows df).
Proof.
  unfold groupby_rows.
  assert (G : forall groups,
            (Forall (fun g => Forall (fun x => key_compare (key_of x) (fst g) = Eq)
                                (snd g)) groups /\
             Sorted (fun g1 g2 => key_lt (fst g1) (fst g2)) groups /\
             Forall (fun g => snd g <> []) groups) ->
            let groups' := fold_left (fun gs r => insert_group r gs) df groups in
            Forall (fun g => Forall (fun x => key_compare (key_of x) (fst g) = Eq)
                               (snd g)) groups' /\
            Sorted (fun g1 g2 => key_lt (fst g1) (fst g2)) groups' /\
            Forall (fun g => snd g <> []) groups').
  { induction df as [|r df IH]; intros groups Inv; [exact Inv|].
    cbn [fold_left]. apply IH. destruct Inv as (I1 & I2 & I3).
    split; [|split].
    - apply insert_group_homogeneous, I1.
    - apply insert_group_Sorted, I2.
    - apply insert_group_nonempty, I3. }
  apply (G []). repeat constructor.
Qed.

Lemma in_windower (l : list sample) (w : list sample) (x : sample) :
  In w (windower l) -> In x w -> In x l.
Proof.
  intros Hw Hx. rewrite <- (concat_windower l).
  apply in_concat. exists w. split; assumption.
Qed.

Lemma all_windows_same_key `{Pandas} (groups : list (key * list sample))
    (w : list sample) :
  Forall (fun g => Forall (fun x => key_compare (key_of x) (fst g) = Eq) (snd g))
    groups ->
  In w (all_windows groups) ->
  exists k, forall x, In x w -> key_compare (key_of x) k = Eq.
Proof.
  intros F Hw. unfold all_windows in Hw. apply in_flat_map in Hw.
  destruct Hw as (g & Hg & Hw). exists (fst g). intros x Hx.
  rewrite Forall_forall in F. specialize (F g Hg). rewrite Forall_forall in F.
  apply F. apply (Permutation_in _ (sort_group_Permutation (snd g))).
  apply (in_windower _ w x Hw Hx).
Qed.


(** * The claims *)

Lemma sort_values_datetime_sorted `{Pandas} (group : list sample) :
  Sorted by_datetime group ->
  NoDup (map (@datetime _ _) group) ->
  sort_values_datetime group = group.
Proof.
  intros S ND. apply sorted_rearrangement_unique.
  - apply sort_group_Permutation.
  - apply sort_group_Sorted.
  - exact S.
  - apply (Permutation_NoDup (l := map (@datetime _ _) group)); [|exact ND].
    apply Permutation_map. symmetry. apply sort_group_Permutation.
Qed.





Lemma merge_groups_total `{Pandas} (df : list raw_row) (out : list merged) :
  Visualizer.merge_groups Visualizer.merge_bucket (groups_of df) = Ok out ->
  total_samples_merged out = List.length (valid_samples df).
Proof.
  intros E. apply merge_groups_Ok in E.
  rewrite (mapM_merge_bucket_total _ E).
  apply Permutation_length, all_windows_valid_samples.
Qed.

Lemma mapM_merge_bucket_returns (ws : list (list sample)) :
  Forall anchored ws ->
  numeric_window (List.concat ws) ->
  exists out, mapM Visualizer.merge_bucket ws = Ok out.
Proof.
  induction ws as [|w ws IH]; intros Ha Hn.
  - exists []. reflexivity.
  - inversion Ha as [|? ? Hw Hws]; subst.
    cbn [List.concat] in Hn. apply Forall_app in Hn. destruct Hn as [Hn Hns].
    destruct w as [|first rest]; [contradiction|].
    destruct (merge_bucket_numeric Hn) as (? & ? & ? & ? & ? & ? & ? & ? &
      ? & ? & ? & ? & ? & ? & ? & ? & E & _).
    destruct (IH Hws Hns) as [out Eout].
    cbn [mapM]. rewrite E, Eout. eexists. reflexivity.
Qed.

(** On a frame whose valid samples hold no text in a metric column and
    have timestamps less than 2^63 nanoseconds apart, the reduction of the
    windows returns. *)
Lemma merge_groups_returns `{Pandas} (df : list raw_row) :
  numeric_window (valid_samples df) ->
  timedeltas_fit (valid_samples df) ->
  exists out,
    Visualizer.merge_groups Visualizer.merge_bucket (groups_of df) = Ok out.
Proof.
  intros Hn Hf. rewrite (merge_groups_windows _ (groups_of_fit df Hf)).
  apply mapM_merge_bucket_returns.
  - unfold all_windows. apply Forall_flat_map, Forall_forall.
    intros g _. apply windower_anchored.
  - apply (Permutation_Forall (Permutation_sym (all_windows_valid_samples df))).
    exact Hn.
Qed.



(** The example frame has five valid samples, in windows of 3, 1 and 1
    samples, and [preprocess_data] returns on it. *)
Example example_csv_records :
  List.length (valid_samples (H := stable_pandas) example_csv) = 5%nat /\
  match emitted_windows (H := stable_pandas) example_csv with
  | Ok ws => map (@List.length _) ws = [3; 1; 1]%nat
  | Raise => False
  end /\
  fst (Visualizer.preprocess_data (H := stable_pandas) 0%nat
         [RawFrame example_csv]) = Ok 4%nat.
Proof. vm_compute. repeat split. Qed.

(** Two samples at one place, 2^63 nanoseconds apart: both timestamps are
    int64, their difference is not, and the loop raises. *)
Example windows_far_apart :
  windows (H := stable_pandas)
    [sample_at (-4611686018427387904) 10%Q (Num (-50)) (Num (-60));
     sample_at 4611686018427387904 10%Q (Num (-50)) (Num (-60))] = Raise.
Proof. reflexivity. Qed.

(** Three samples at (10, 20) at 0s, 2s and 4s with signal levels -50, -55
    and -60 give one record: minimum -60, maximum -50, mean -55, three
    samples merged, timestamp 0s. *)
Example three_samples_one_record :
  match Visualizer.merge_bucket
          [ sample_at (seconds 0) 10%Q (Num (-50)) (Num (-60));
            sample_at (seconds 2) 10%Q (Num (-55)) (Num (-60));
            sample_at (seconds 4) 10%Q (Num (-60)) (Num (-60)) ] with
  | Ok r =>
      get "signal_min" r = Some (Cell (Num (-60))) /\
      get "signal_max" r = Some (Cell (Num (-50))) /\
      match get "wireless_signal" r with
      | Some (Cell (Num q)) => Qeq_bool q (-55) = true
      | _ => False
      end /\
      get "samples_merged" r = Some (Len 3) /\
      get "datetime" r = Some (Timestamp 0)
  | Raise => False
  end.
Proof. vm_compute. repeat split. Qed.

(** C9.  [preprocess_data] and [merge_bucket] of visualizer.py and of
    visualizer2.py are the same functions: on every store and frame, and on
    every list of rows, they give equal results. *)
Theorem visualizer2_same_aggregation `{Pandas}
    (df : ref) (h : heap) (rows : list sample) :
  Visualizer.preprocess_data df h = Visualizer2.preprocess_data df h /\
  Visualizer.merge_bucket rows = Visualizer2.merge_bucket rows.
Proof.
  split.
  - apply preprocess_data_same.
  - apply merge_bucket_same.
Qed.

(** C10.  [preprocess_data], in either file, leaves every frame of the store
    it is run in as it was, the frame it is given included: the store it
    leaves is the old store followed by the frames it created. *)
Theorem preprocess_data_leaves_input `{Pandas} (h : heap) (df : ref) :
  (exists new_frames,
     snd (Visualizer.preprocess_data df h) = h ++ new_frames) /\
  (exists new_frames,
     snd (Visualizer2.preprocess_data df h) = h ++ new_frames) /\
  firstn (List.length h) (snd (Visualizer.preprocess_data df h)) = h /\
  firstn (List.length h) (snd (Visualizer2.preprocess_data df h)) = h.
Proof.
  assert (F : forall new_frames : heap,
            firstn (List.length h) (h ++ new_frames) = h).
  { intros new_frames. rewrite firstn_app, Nat.sub_diag, firstn_all.
    simpl. apply app_nil_r. }
  repeat split.
  - apply preprocess_data_extends.
  - rewrite <- preprocess_data_same. apply preprocess_data_extends.
  - destruct (preprocess_data_extends h df) as [new ->]. apply F.
  - rewrite <- preprocess_data_same.
    destruct (preprocess_data_extends h df) as [new ->]. apply F.
Qed.

Lemma groups_of_no_valid_samples `{Pandas} (csv : list raw_row) :
  valid_samples csv = [] -> groups_of csv = [].
Proof.
  intros E. unfold groups_of. rewrite E.
  rewrite (Permutation_nil (Permutation_sym (sort_frame_Permutation []))).
  reflexivity.
Qed.

Lemma main_run `{Pandas} (csv : list raw_row) (output_html : string) :
  Visualizer.main csv output_html =
  match Visualizer.merge_groups Visualizer.merge_bucket (groups_of csv) with
  | Ok [] => Ok [Printed "No valid data after preprocessing."%string]
  | Ok (r :: rows) =>
      Ok [Saved output_html (r :: rows);
          Printed (String.append "Map saved to "%string output_html)]
  | Raise => Raise
  end.
Proof.
  unfold Visualizer.main.
  rewrite (preprocess_data_run [RawFrame csv] 0%nat eq_refl).
  destruct (Visualizer.merge_groups Visualizer.merge_bucket (groups_of csv))
    as [[|r rows]|]; reflexivity.
Qed.

(** C6.  On a frame without valid samples [preprocess_data] returns an empty
    frame instead of raising, and [main] only prints that there is no valid
    data; on a frame with valid samples [main] never does just that: it
    saves a map and reports it, or raises. *)
Theorem no_valid_samples_no_data `{Pandas}
    (csv csv' : list raw_row) (output_html : string) :
  valid_samples csv = [] ->
  (exists h',
     Visualizer.preprocess_data 0%nat [RawFrame csv] = (Ok 4%nat, h') /\
     nth_error h' 4%nat = Some (MergedFrame [])) /\
  Visualizer.main csv output_html =
    Ok [Printed "No valid data after preprocessing."%string] /\
  (valid_samples csv' = [] \/
   Visualizer.main csv' output_html = Raise \/
   exists markers,
     markers <> [] /\
     Visualizer.main csv' output_html =
       Ok [Saved output_html markers;
           Printed (String.append "Map saved to "%string output_html)]).
Proof.
  intros E. split; [|split].
  - rewrite (preprocess_data_run [RawFrame csv] 0%nat eq_refl).
    rewrite (groups_of_no_valid_samples csv E).
    eexists. split; reflexivity.
  - rewrite main_run, (groups_of_no_valid_samples csv E). reflexivity.
  - rewrite main_run.
    destruct (Visualizer.merge_groups Visualizer.merge_bucket (groups_of csv'))
      as [[|r rows]|] eqn:G.
    + left. apply merge_groups_total in G. simpl in G.
      destruct (valid_samples csv'); [reflexivity|discriminate].
    + right. right. exists (r :: rows). split; [discriminate|reflexivity].
    + right. left. reflexivity.
Qed.

Lemma no_valid_samples_no_data_witness :
  (exists h',
     Visualizer.preprocess_data (H := stable_pandas) 0%nat [RawFrame unusable_csv]
       = (Ok 4%nat, h') /\
     nth_error h' 4%nat = Some (MergedFrame [])) /\
  Visualizer.main (H := stable_pandas) unusable_csv "wireless_map.html" =
    Ok [Printed "No valid data after preprocessing."%string] /\
  (valid_samples (H := stable_pandas) example_csv = [] \/
   Visualizer.main (H := stable_pandas) example_csv "wireless_map.html" = Raise \/
   exists markers,
     markers <> [] /\
     Visualizer.main (H := stable_pandas) example_csv "wireless_map.html" =
       Ok [Saved "wireless_map.html" markers;
           Printed (String.append "Map saved to "%string "wireless_map.html")]).
Proof.
  apply (@no_valid_samples_no_data stable_pandas unusable_csv example_csv
           "wireless_map.html"%string).
  reflexivity.
Defined.








Lemma get_carries (k : string) (q : Q) (r : merged) :
  get k r = Some (Cell (Num q)) -> carries r q = true.
Proof.
  induction r as [|[k' v] r IH]; cbn [get]; [discriminate|].
  unfold carries in *. cbn [existsb snd].
  destruct (String.eqb k' k).
  - intros [= ->]. rewrite Qeq_bool_refl. reflexivity.
  - intros G. rewrite (IH G). apply orb_true_r.
Qed.

Lemma datetime_min_first (first : sample) (rest : list sample) :
  Sorted by_datetime (first :: rest) ->
  datetime_min (datetime first) (map (@datetime _ _) rest) = datetime first.
Proof.
  intros S. apply Sorted_by_datetime_Forall in S.
  destruct (datetime_min_spec (map (@datetime _ _) rest) (datetime first))
    as [Hin Hle].
  inversion Hle as [|? ? Hfirst _]; subst.
  destruct Hin as [E|Hin]; [symmetry; exact E|].
  apply in_map_iff in Hin. destruct Hin as (x & Ex & Hx).
  rewrite Forall_forall in S. specialize (S x Hx). unfold by_datetime in S.
  lia.
Qed.

(** C3, as worded: the record of a window holds the minimum, the maximum
    and the mean of every numeric metric, and every non-empty window has a
    record.  The record of a window with rssi values 1 and 3 holds neither
    under any key, and a window with a text cell has no record. *)
Lemma merge_bucket_lacks_statistics :
  (~ exists r, Visualizer.merge_bucket rssi_window = Ok r /\
               has_all_statistics rssi_window r) /\
  Visualizer.merge_bucket text_window = Raise.
Proof.
  split; [|reflexivity].
  intros (r & E & Hall).
  assert (C : match Visualizer.merge_bucket rssi_window with
              | Ok r => carries r 1 = false
              | Raise => True
              end) by (vm_compute; reflexivity).
  rewrite E in C.
  destruct (Hall rssi) as (kmin & _ & _ & cmin & _ & _ & G & Hmin & _).
  destruct cmin as [q| |s]; cbn in Hmin.
  - destruct Hmin as [[<-|[<-|[]]] Hle].
    + apply get_carries in G. congruence.
    + inversion Hle as [|? ? H31 _]. vm_compute in H31. congruence.
  - discriminate Hmin.
  - exact Hmin.
Qed.

(** C3, amended.  For a non-empty window none of whose metric cells is text,
    the reducer returns one record in which: the timestamp is the least
    timestamp of the window (the first sample's, when the window is in
    ascending time order); every numeric metric has its mean over the
    non-missing values under the metric's own key; signal, noise, tx rate
    and rx rate have, in addition, their minimum and maximum; channel,
    frequency and operating mode are those of the window's first sample; and
    [samples_merged] is the size of the window, at least 1. *)
Theorem merge_bucket_record (first : sample) (rest : list sample) :
  numeric_window (first :: rest) ->
  exists r,
    Visualizer.merge_bucket (first :: rest) = Ok r /\
    (exists t,
       get "datetime" r = Some (Timestamp t) /\
       In t (map (@datetime _ _) (first :: rest)) /\
       Forall (fun u => (t <= u)%Z) (map (@datetime _ _) (first :: rest)) /\
       (Sorted by_datetime (first :: rest) -> t = datetime first)) /\
    (forall m, exists c,
       get (mean_key m) r = Some (Cell c) /\
       is_mean c (map (column m) (first :: rest))) /\
    (forall m,
       match extrema_keys m with
       | Some (kmin, kmax) =>
           exists cmin cmax,
             get kmin r = Some (Cell cmin) /\
             is_minimum cmin (map (column m) (first :: rest)) /\
             get kmax r = Some (Cell cmax) /\
             is_maximum cmax (map (column m) (first :: rest))
       | None => True
       end) /\
    get "wireless_channel" r = Some (Cell (wireless_channel first)) /\
    get "wireless_frequency" r = Some (Cell (wireless_frequency first)) /\
    get "wireless_opmode" r = Some (Cell (wireless_opmode first)) /\
    get "samples_merged" r = Some (Len (List.length (first :: rest))) /\
    (1 <= List.length (first :: rest))%nat.
Proof.
  intros Hw.
  destruct (merge_bucket_numeric Hw)
    as (smin & smax & nmin & nmax & tmax & tmin & rmax & rmin &
        sig & noi & rs & txp & dis & cq & txr & rxr &
        E & (P1 & P2 & P3 & P4) & (P5 & P6 & P7 & P8) &
        (P9 & P10 & P11 & P12) & (P13 & P14 & P15 & P16)).
  eexists. split; [exact E|].
  split; [|split; [|split]].
  - eexists. split; [reflexivity|].
    destruct (datetime_min_spec (map (@datetime _ _) rest) (datetime first))
      as [Hin Hle].
    split; [exact Hin|]. split; [exact Hle|].
    intros S. apply datetime_min_first, S.
  - intros m. destruct m; eexists; (split; [reflexivity|assumption]).
  - intros m. destruct m; cbn [extrema_keys]; try exact I;
      do 2 eexists; (split; [reflexivity|]); (split; [eassumption|]);
      (split; [reflexivity|eassumption]).
  - repeat split. simpl. lia.
Qed.

Lemma merge_bucket_record_witness :
  exists r,
    Visualizer.merge_bucket rssi_window = Ok r /\
    (exists t,
       get "datetime" r = Some (Timestamp t) /\
       In t (map (@datetime _ _) rssi_window) /\
       Forall (fun u => (t <= u)%Z) (map (@datetime _ _) rssi_window) /\
       (Sorted by_datetime rssi_window ->
        t = datetime (sample_at 0 10%Q (Num (-50)) (Num 1)))) /\
    (forall m, exists c,
       get (mean_key m) r = Some (Cell c) /\
       is_mean c (map (column m) rssi_window)) /\
    (forall m,
       match extrema_keys m with
       | Some (kmin, kmax) =>
           exists cmin cmax,
             get kmin r = Some (Cell cmin) /\
             is_minimum cmin (map (column m) rssi_window) /\
             get kmax r = Some (Cell cmax) /\
             is_maximum cmax (map (column m) rssi_window)
       | None => True
       end) /\
    get "wireless_channel" r = Some (Cell (Num 36)) /\
    get "wireless_frequency" r = Some (Cell (Num 5180)) /\
    get "wireless_opmode" r = Some (Cell (Str "sta")) /\
    get "samples_merged" r = Some (Len 2) /\
    (1 <= 2)%nat.
Proof.
  apply (@merge_bucket_record (sample_at 0 10%Q (Num (-50)) (Num 1))
           [sample_at 1 10%Q (Num (-55)) (Num 3)]).
  repeat constructor; intros m; destruct m; reflexivity.
Defined.

Lemma numbers_nil_missing (col : list cell) :
  existsb is_str col = false ->
  (numbers col = [] <-> Forall missing col).
Proof.
  induction col as [|c col IH]; cbn [existsb]; intros E.
  - split; [constructor|reflexivity].
  - apply orb_false_iff in E. destruct E as [Ec E].
    specialize (IH E). destruct c as [q| |s]; cbn in *.
    + split; [discriminate|]. intros F. inversion F as [|? ? Hc _].
      discriminate Hc.
    + rewrite IH. split.
      * intros F. constructor; [reflexivity|exact F].
      * intros F. inversion F; assumption.
    + discriminate Ec.
Qed.

Lemma is_minimum_missing (c : cell) (col : list cell) :
  is_minimum c col -> (c = NaN <-> numbers col = []).
Proof.
  destruct c as [q| |s]; cbn; intros Hc.
  - destruct Hc as [Hin _]. split; [discriminate|]. intros E.
    rewrite E in Hin. contradiction.
  - split; [intros _; exact Hc|reflexivity].
  - contradiction.
Qed.

Lemma is_maximum_missing (c : cell) (col : list cell) :
  is_maximum c col -> (c = NaN <-> numbers col = []).
Proof.
  destruct c as [q| |s]; cbn; intros Hc.
  - destruct Hc as [Hin _]. split; [discriminate|]. intros E.
    rewrite E in Hin. contradiction.
  - split; [intros _; exact Hc|reflexivity].
  - contradiction.
Qed.

Lemma is_mean_missing (c : cell) (col : list cell) :
  is_mean c col -> (c = NaN <-> numbers col = []).
Proof.
  destruct c as [q| |s]; cbn; intros Hc.
  - destruct Hc as [Hne _]. split; [discriminate|]. intros E. contradiction.
  - split; [intros _; exact Hc|reflexivity].
  - contradiction.
Qed.

(** C5, as worded: a metric that is missing or not numeric in some sample of
    a window leaves the reducer returning, with the metric's statistics
    reported as missing.  A text cell makes the reducer raise, and a metric
    missing in one sample of two has the statistics of the other sample. *)
Lemma merge_bucket_text_or_partly_missing :
  ~ missing_reported_as_missing Visualizer.merge_bucket text_window signal /\
  ~ missing_reported_as_missing Visualizer.merge_bucket
      partly_missing_window signal.
Proof.
  split; intros Claim.
  - destruct Claim as (rec & E & _).
    + apply Exists_cons_hd. right. reflexivity.
    + discriminate E.
  - destruct Claim as (rec & E & Hk).
    + apply Exists_cons_tl, Exists_cons_hd. left. reflexivity.
    + specialize (Hk "signal_min"%string).
      assert (C : match Visualizer.merge_bucket partly_missing_window with
                  | Ok rec => get "signal_min" rec = Some (Cell (Num (-50)))
                  | Raise => True
                  end) by (vm_compute; reflexivity).
      rewrite E in C. rewrite C in Hk.
      assert (F : Some (Cell (Num (-50))) = Some (Cell NaN)).
      { apply Hk. cbn. right. left. reflexivity. }
      discriminate F.
Qed.

(** C5, amended.  On a non-empty window none of whose metric cells is text
    the reducer returns, whatever is missing, a record with all its fields;
    each statistic of a metric (mean, and minimum and maximum where the
    record has them) is that of the samples in which the metric is not
    missing, and is reported as missing exactly when the metric is missing
    in every sample of the window, as in a window whose only sample lacks
    it. *)
Theorem merge_bucket_missing_metric (first : sample) (rest : list sample) :
  numeric_window (first :: rest) ->
  exists rec,
    Visualizer.merge_bucket (first :: rest) = Ok rec /\
    map fst rec = record_keys /\
    forall m,
      (exists c,
         get (mean_key m) rec = Some (Cell c) /\
         is_mean c (map (column m) (first :: rest)) /\
         (c = NaN <-> Forall (fun r => missing (column m r)) (first :: rest))) /\
      match extrema_keys m with
      | Some (kmin, kmax) =>
          (exists c,
             get kmin rec = Some (Cell c) /\
             is_minimum c (map (column m) (first :: rest)) /\
             (c = NaN <->
              Forall (fun r => missing (column m r)) (first :: rest))) /\
          (exists c,
             get kmax rec = Some (Cell c) /\
             is_maximum c (map (column m) (first :: rest)) /\
             (c = NaN <->
              Forall (fun r => missing (column m r)) (first :: rest)))
      | None => True
      end.
Proof.
  intros Hw.
  destruct (merge_bucket_numeric Hw)
    as (smin & smax & nmin & nmax & tmax & tmin & rmax & rmin &
        sig & noi & rs & txp & dis & cq & txr & rxr &
        E & (P1 & P2 & P3 & P4) & (P5 & P6 & P7 & P8) &
        (P9 & P10 & P11 & P12) & (P13 & P14 & P15 & P16)).
  eexists. split; [exact E|]. split; [reflexivity|].
  intros m.
  assert (N : numbers (map (column m) (first :: rest)) = [] <->
              Forall (fun r => missing (column m r)) (first :: rest)).
  { rewrite (numbers_nil_missing _ (numeric_column m Hw)). apply Forall_map. }
  assert (Mean : forall c, is_mean c (map (column m) (first :: rest)) ->
                   is_mean c (map (column m) (first :: rest)) /\
                   (c = NaN <->
                    Forall (fun r => missing (column m r)) (first :: rest))).
  { intros c Hc. split; [exact Hc|]. rewrite <- N. apply is_mean_missing, Hc. }
  assert (Min : forall c, is_minimum c (map (column m) (first :: rest)) ->
                  is_minimum c (map (column m) (first :: rest)) /\
                  (c = NaN <->
                   Forall (fun r => missing (column m r)) (first :: rest))).
  { intros c Hc. split; [exact Hc|]. rewrite <- N. apply is_minimum_missing, Hc. }
  assert (Max : forall c, is_maximum c (map (column m) (first :: rest)) ->
                  is_maximum c (map (column m) (first :: rest)) /\
                  (c = NaN <->
                   Forall (fun r => missing (column m r)) (first :: rest))).
  { intros c Hc. split; [exact Hc|]. rewrite <- N. apply is_maximum_missing, Hc. }
  clear N.
  destruct m; cbn [extrema_keys mean_key]; (split; [|try exact I; try split]);
    eexists; (split; [reflexivity|]);
    first [ apply Mean; assumption | apply Min; assumption | apply Max; assumption ].
Qed.

Lemma merge_bucket_missing_metric_witness :
  exists rec,
    Visualizer.merge_bucket missing_window = Ok rec /\
    map fst rec = record_keys /\
    forall m,
      (exists c,
         get (mean_key m) rec = Some (Cell c) /\
         is_mean c (map (column m) missing_window) /\
         (c = NaN <-> Forall (fun r => missing (column m r)) missing_window)) /\
      match extrema_keys m with
      | Some (kmin, kmax) =>
          (exists c,
             get kmin rec = Some (Cell c) /\
             is_minimum c (map (column m) missing_window) /\
             (c = NaN <-> Forall (fun r => missing (column m r)) missing_window)) /\
          (exists c,
             get kmax rec = Some (Cell c) /\
             is_maximum c (map (column m) missing_window) /\
             (c = NaN <-> Forall (fun r => missing (column m r)) missing_window))
      | None => True
      end.
Proof.
  apply (@merge_bucket_missing_metric (sample_at 0 10%Q NaN (Num (-60))) []).
  repeat constructor; intros m; destruct m; reflexivity.
Defined.

(** The window whose only sample lacks the signal level: minimum, maximum
    and mean of the signal level are missing, and the reducer returns. *)
Example missing_window_record :
  match Visualizer.merge_bucket missing_window with
  | Ok rec =>
      get "signal_min" rec = Some (Cell NaN) /\
      get "signal_max" rec = Some (Cell NaN) /\
      get "wireless_signal" rec = Some (Cell NaN) /\
      get "samples_merged" rec = Some (Len 1)
  | Raise => False
  end.
Proof. vm_compute. repeat split. Qed.

(** * Further properties of the aggregation *)

(** ** When the reducer raises *)

Lemma series_mean_Ok (col : list cell) (c : cell) :
  series_mean col = Ok c -> existsb is_str col = false.
Proof.
  unfold series_mean. destruct (existsb is_str col); [discriminate|reflexivity].
Qed.

Lemma numeric_window_columns (w : list sample) :
  (forall m, existsb is_str (map (column m) w) = false) -> numeric_window w.
Proof.
  induction w as [|r w IH]; intros Hc; [constructor|].
  constructor.
  - intros m. specialize (Hc m). cbn [map existsb] in Hc.
    apply orb_false_iff in Hc. apply Hc.
  - apply IH. intros m. specialize (Hc m). cbn [map existsb] in Hc.
    apply orb_false_iff in Hc. apply Hc.
Qed.

Lemma merge_bucket_Ok_numeric (w : list sample) (r : merged) :
  Visualizer.merge_bucket w = Ok r -> w <> [] /\ numeric_window w.
Proof.
  unfold Visualizer.merge_bucket. destruct w as [|first rest]; [discriminate|].
  intros E. split; [discriminate|].
  repeat match type of E with
         | bind ?c _ = _ =>
             let Q := fresh "Q" in
             destruct c eqn:Q; cbn [bind] in E; [|discriminate E]
         end.
  apply numeric_window_columns. intros m.
  destruct m;
    match goal with
    | H : series_mean _ = Ok _ |- _ => exact (series_mean_Ok _ H)
    end.
Qed.

(** X1.  [merge_bucket] raises exactly on the empty list and on lists in
    which some cell of a numeric metric is text. *)
Theorem merge_bucket_raises_iff (w : list sample) :
  Visualizer.merge_bucket w = Raise <-> w = [] \/ ~ numeric_window w.
Proof.
  split.
  - intros E. destruct w as [|first rest]; [left; reflexivity|].
    right. intros Hn.
    destruct (merge_bucket_numeric Hn) as (? & ? & ? & ? & ? & ? & ? & ? &
      ? & ? & ? & ? & ? & ? & ? & ? & E' & _).
    congruence.
  - intros [-> | Hn]; [reflexivity|].
    destruct (Visualizer.merge_bucket w) as [r|] eqn:E; [|reflexivity].
    exfalso. apply Hn. apply (merge_bucket_Ok_numeric w E).
Qed.

Lemma mapM_Ok_Forall {A B} (f : A -> result B) (l : list A) (ys : list B) :
  mapM f l = Ok ys -> Forall (fun x => exists y, f x = Ok y) l.
Proof.
  revert ys. induction l as [|x l IH]; intros ys E; [constructor|].
  cbn [mapM] in E.
  destruct (f x) as [y|] eqn:Ex; cbn [bind] in E; [|discriminate].
  destruct (mapM f l) as [ys'|]; cbn [bind] in E; [|discriminate].
  constructor; [eauto|]. apply (IH ys'). reflexivity.
Qed.

Lemma merge_groups_Ok_numeric `{Pandas} (df : list raw_row) (out : list merged) :
  Visualizer.merge_groups Visualizer.merge_bucket (groups_of df) = Ok out ->
  numeric_window (valid_samples df).
Proof.
  intros E. apply merge_groups_Ok in E.
  apply (Permutation_Forall (all_windows_valid_samples df)).
  apply Forall_concat.
  eapply Forall_impl; [|apply (mapM_Ok_Forall _ _ E)].
  intros w [r Er]. apply (merge_bucket_Ok_numeric w Er).
Qed.

(** X2.  [preprocess_data] raises whenever a metric cell of a valid sample
    is text, and, when the valid timestamps are less than 2^63 nanoseconds
    apart, only then; text in a row that is dropped does no harm. *)
Theorem preprocess_data_raises_iff `{Pandas}
    (h : heap) (df : ref) (rows : list raw_row) :
  nth_error h df = Some (RawFrame rows) ->
  (~ numeric_window (valid_samples rows) ->
   fst (Visualizer.preprocess_data df h) = Raise) /\
  (timedeltas_fit (valid_samples rows) ->
   (fst (Visualizer.preprocess_data df h) = Raise <->
    ~ numeric_window (valid_samples rows))).
Proof.
  intros Hdf. rewrite (preprocess_data_run h df Hdf).
  destruct (Visualizer.merge_groups Visualizer.merge_bucket (groups_of rows))
    as [out|] eqn:E; cbn [fst].
  - pose proof (merge_groups_Ok_numeric rows E) as Hn.
    split; [intros Hnot; contradiction|].
    intros _. split; [discriminate|intros Hnot; contradiction].
  - split; [reflexivity|].
    intros Hf. split; [|reflexivity]. intros _ Hn.
    destruct (merge_groups_returns rows Hn Hf) as [out Eout]. congruence.
Qed.

Lemma preprocess_data_raises_iff_witness :
  (~ numeric_window
       (valid_samples (H := stable_pandas)
          (raw_at (Num 3) (Some 10%Q) (Str "abc") :: example_csv)) ->
   fst (Visualizer.preprocess_data (H := stable_pandas) 0%nat
          [RawFrame (raw_at (Num 3) (Some 10%Q) (Str "abc") :: example_csv)])
     = Raise) /\
  (timedeltas_fit
     (valid_samples (H := stable_pandas)
        (raw_at (Num 3) (Some 10%Q) (Str "abc") :: example_csv)) ->
   (fst (Visualizer.preprocess_data (H := stable_pandas) 0%nat
           [RawFrame (raw_at (Num 3) (Some 10%Q) (Str "abc") :: example_csv)])
      = Raise <->
    ~ numeric_window
        (valid_samples (H := stable_pandas)
           (raw_at (Num 3) (Some 10%Q) (Str "abc") :: example_csv)))).
Proof.
  apply (@preprocess_data_raises_iff stable_pandas
           [RawFrame (raw_at (Num 3) (Some 10%Q) (Str "abc") :: example_csv)]
           0%nat (raw_at (Num 3) (Some 10%Q) (Str "abc") :: example_csv)).
  reflexivity.
Defined.

(** Text in a valid row makes [preprocess_data] raise; the same text in a
    row without a timestamp, which is dropped, does not. *)
Example text_in_valid_and_in_dropped_row :
  fst (Visualizer.preprocess_data (H := stable_pandas) 0%nat
         [RawFrame (raw_at (Num 3) (Some 10%Q) (Str "abc") :: example_csv)])
    = Raise /\
  fst (Visualizer.preprocess_data (H := stable_pandas) 0%nat
         [RawFrame (raw_at NaN (Some 10%Q) (Str "abc") :: example_csv)])
    = Ok 4%nat.
Proof. vm_compute. split; reflexivity. Qed.

(** ** Groups *)

(** X3.  [groupby] makes one non-empty group per coordinate pair: every
    sample of the frame is in a group, the groups together hold the samples
    of the frame and nothing else, the samples of a group all have the
    coordinates of the group's key, and the keys of the groups are strictly
    ascending (latitude first, then longitude), hence pairwise different. *)
Theorem groupby_one_group_per_coordinate (df : list sample) :
  Permutation (flat_map snd (groupby_rows df)) df /\
  (forall x, In x df <-> exists g, In g (groupby_rows df) /\ In x (snd g)) /\
  Forall (fun g =>
            snd g <> [] /\
            Forall (fun x => (latitude x == fst (fst g))%Q /\
                             (longitude x == snd (fst g))%Q) (snd g))
    (groupby_rows df) /\
  StronglySorted key_lt (map fst (groupby_rows df)).
Proof.
  destruct (groupby_rows_invariant df) as (I1 & I2 & I3).
  pose proof (groupby_rows_Permutation df) as P.
  split; [exact P|]. split; [|split].
  - intros x. rewrite <- in_flat_map. split; intros Hx.
    + apply (Permutation_in _ (Permutation_sym P) Hx).
    + apply (Permutation_in _ P Hx).
  - rewrite Forall_forall in *. intros g Hg. split; [apply I3, Hg|].
    specialize (I1 g Hg). rewrite Forall_forall in *.
    intros x Hx. apply (key_compare_Eq (key_of x) (fst g)), I1, Hx.
  - apply Sorted_StronglySorted.
    + intros x y z. apply key_lt_trans.
    + clear I1 I3 P. induction I2 as [|g gs S IH Hd]; [constructor|].
      cbn [map]. constructor; [exact IH|].
      destruct Hd; constructor; assumption.
Qed.

Lemma merge_bucket_coordinates (w : list sample) (r : merged) :
  Visualizer.merge_bucket w = Ok r ->
  exists first,
    In first w /\
    get "latitude" r = Some (Cell (Num (latitude first))) /\
    get "longitude" r = Some (Cell (Num (longitude first))).
Proof.
  intros E. destruct (merge_bucket_Ok_numeric w E) as [Hne Hn].
  destruct w as [|first rest]; [contradiction|].
  destruct (merge_bucket_numeric Hn) as (? & ? & ? & ? & ? & ? & ? & ? &
    ? & ? & ? & ? & ? & ? & ? & ? & E' & _).
  rewrite E in E'. injection E' as ->.
  exists first. split; [left; reflexivity|]. split; reflexivity.
Qed.

(** The windows of a frame, whenever the loops return them; they raise only
    on a frame with two valid timestamps 2^63 nanoseconds or more apart. *)
Lemma emitted_windows_cases `{Pandas} (csv : list raw_row) :
  match emitted_windows csv with
  | Ok ws => ws = all_windows (groups_of csv)
  | Raise => ~ timedeltas_fit (valid_samples csv)
  end.
Proof.
  destruct (emitted_windows csv) as [ws|] eqn:E.
  - apply emitted_windows_all, E.
  - intros F. unfold emitted_windows in E.
    rewrite (merge_groups_windows _ (groups_of_fit csv F)), mapM_Ok in E.
    discriminate.
Qed.

(** X4.  A window never mixes places: all samples of an emitted window have
    equal coordinates, and the latitude and longitude of the window's record
    are theirs.  No windows are emitted only when the loop raises, on a
    frame with two valid timestamps 2^63 nanoseconds or more apart. *)
Theorem windows_share_coordinates `{Pandas} (csv : list raw_row) :
  match emitted_windows csv with
  | Ok ws =>
      Forall (fun w =>
                (forall a b, In a w -> In b w -> same_coordinates a b) /\
                (forall r, Visualizer.merge_bucket w = Ok r ->
                   exists lat lon,
                     get "latitude" r = Some (Cell (Num lat)) /\
                     get "longitude" r = Some (Cell (Num lon)) /\
                     forall x, In x w ->
                       (latitude x == lat)%Q /\ (longitude x == lon)%Q))
        ws
  | Raise => ~ timedeltas_fit (valid_samples csv)
  end.
Proof.
  pose proof (emitted_windows_cases csv) as C.
  destruct (emitted_windows csv) as [ws|]; [|exact C]. subst ws.
  apply Forall_forall. intros w Hw.
  destruct (@all_windows_same_key _ (groups_of csv) w) as [k Hk].
  { apply groupby_rows_invariant. }
  { exact Hw. }
  assert (S : forall a b, In a w -> In b w -> same_coordinates a b).
  { intros a b Ha Hb.
    apply Hk, key_compare_Eq in Ha. apply Hk, key_compare_Eq in Hb.
    cbn [key_of fst snd] in Ha, Hb. destruct Ha as [A1 A2], Hb as [B1 B2].
    split; [rewrite A1, B1|rewrite A2, B2]; reflexivity. }
  split; [exact S|].
  intros r Er. destruct (merge_bucket_coordinates w Er) as (first & Hf & G1 & G2).
  exists (latitude first), (longitude first).
  split; [exact G1|]. split; [exact G2|].
  intros x Hx. apply (S x first Hx Hf).
Qed.

(** ** Windows of groups that are dense or sparse in time *)

Lemma windower_from_within (l : list sample) :
  forall anchor w,
    Forall (fun r => (datetime r - anchor <= threshold)%Z) l ->
    windower_from anchor w l = [w ++ l].
Proof.
  induction l as [|r l IH]; intros anchor w F; cbn [windower_from].
  - rewrite app_nil_r. reflexivity.
  - inversion F as [|? ? Hr Hl]; subst.
    apply Z.leb_le in Hr. rewrite Hr, (IH _ _ Hl), <- app_assoc. reflexivity.
Qed.

Lemma within_threshold_fit (group : list sample) :
  (forall a b, In a group -> In b group ->
     (datetime b - datetime a <= threshold)%Z) ->
  timedeltas_fit group.
Proof.
  intros Hclose a b Ha Hb.
  pose proof (Hclose a b Ha Hb) as H1. pose proof (Hclose b a Hb Ha) as H2.
  unfold threshold, timedelta, MERGE_WINDOW_SECONDS in *. lia.
Qed.

Lemma windows_within_threshold `{Pandas} (group : list sample) :
  group <> [] ->
  (forall a b, In a group -> In b group ->
     (datetime b - datetime a <= threshold)%Z) ->
  windows group = Ok [sort_values_datetime group].
Proof.
  intros Hne Hclose. rewrite (windows_returns (within_threshold_fit _ Hclose)).
  pose proof (sort_group_Permutation group) as P.
  destruct (sort_values_datetime group) as [|a l].
  { apply Permutation_nil in P. contradiction. }
  cbn [windower]. rewrite windower_from_within; [reflexivity|].
  apply Forall_forall. intros r Hr. apply Hclose.
  - apply (Permutation_in _ P). left. reflexivity.
  - apply (Permutation_in _ P). right. exact Hr.
Qed.

(** X5.  A non-empty group whose samples all lie within 6 seconds of one
    another is merged into a single window holding the whole group. *)
Theorem windows_dense_group `{Pandas} (group : list sample) :
  group <> [] ->
  (forall a b, In a group -> In b group ->
     (datetime b - datetime a <= threshold)%Z) ->
  windows group = Ok [sort_values_datetime group].
Proof. apply windows_within_threshold. Qed.

Lemma windows_dense_group_witness :
  windows (H := stable_pandas)
    [sample_at (seconds 6) 10%Q NaN (Num (-60));
     sample_at (seconds 0) 10%Q (Num (-50)) (Num (-60));
     sample_at (seconds 5) 10%Q (Num (-55)) (Num (-60))] =
  Ok [sort_values_datetime (Pandas := stable_pandas)
        [sample_at (seconds 6) 10%Q NaN (Num (-60));
         sample_at (seconds 0) 10%Q (Num (-50)) (Num (-60));
         sample_at (seconds 5) 10%Q (Num (-55)) (Num (-60))]].
Proof.
  apply (@windows_dense_group stable_pandas).
  - discriminate.
  - intros a b [<-|[<-|[<-|[]]]] [<-|[<-|[<-|[]]]]; vm_compute; discriminate.
Defined.

Lemma windower_sparse (l : list sample) :
  Sorted (fun a b => (datetime b - datetime a > threshold)%Z) l ->
  windower l = map (fun r => [r]) l.
Proof.
  destruct l as [|a l]; [reflexivity|]. cbn [windower map].
  revert a. induction l as [|b l IH]; intros a S; [reflexivity|].
  inversion S as [|? ? S' Hd]; subst. inversion Hd as [|? ? Hab]; subst.
  cbn [windower_from map].
  assert (E : (datetime b - datetime a <=? threshold)%Z = false).
  { apply Z.leb_gt. lia. }
  rewrite E. f_equal. apply IH, S'.
Qed.

Lemma Sorted_sparse (l : list sample) :
  Sorted by_datetime l ->
  NoDup l ->
  (forall a b, In a l -> In b l ->
     a = b \/ (threshold < Z.abs (datetime a - datetime b))%Z) ->
  Sorted (fun a b => (datetime b - datetime a > threshold)%Z) l.
Proof.
  induction l as [|a l IH]; intros S ND Hfar; [constructor|].
  inversion S as [|? ? S' Hd]; subst. inversion ND as [|? ? Hnotin ND']; subst.
  constructor.
  - apply IH; [exact S'|exact ND'|].
    intros x y Hx Hy. apply Hfar; right; assumption.
  - destruct Hd as [|b l Hab]; constructor.
    unfold by_datetime in Hab.
    destruct (Hfar a b) as [E|F].
    + left. reflexivity.
    + right. left. reflexivity.
    + exfalso. apply Hnotin. rewrite E. left. reflexivity.
    + lia.
Qed.

(** X6.  When any two different samples of a group are more than 6 seconds
    and less than 2^63 nanoseconds apart, nothing is merged: every sample is
    a window of its own, in ascending time order. *)
Theorem windows_sparse_group `{Pandas} (group : list sample) :
  NoDup group ->
  timedeltas_fit group ->
  (forall a b, In a group -> In b group ->
     a = b \/ (threshold < Z.abs (datetime a - datetime b))%Z) ->
  windows group = Ok (map (fun r => [r]) (sort_values_datetime group)).
Proof.
  intros ND Hfit Hfar. rewrite (windows_returns Hfit). f_equal.
  pose proof (sort_group_Permutation group) as P.
  apply windower_sparse, Sorted_sparse.
  - apply sort_group_Sorted.
  - apply (Permutation_NoDup (Permutation_sym P) ND).
  - intros a b Ha Hb. apply Hfar; apply (Permutation_in _ P); assumption.
Qed.

Lemma windows_sparse_group_witness :
  windows (H := stable_pandas)
    [sample_at (seconds 20) 10%Q NaN (Num (-60));
     sample_at (seconds 0) 10%Q (Num (-50)) (Num (-60));
     sample_at (seconds 7) 10%Q (Num (-55)) (Num (-60))] =
  Ok (map (fun r => [r])
        (sort_values_datetime (Pandas := stable_pandas)
           [sample_at (seconds 20) 10%Q NaN (Num (-60));
            sample_at (seconds 0) 10%Q (Num (-50)) (Num (-60));
            sample_at (seconds 7) 10%Q (Num (-55)) (Num (-60))])).
Proof.
  apply (@windows_sparse_group stable_pandas).
  - repeat constructor; simpl; intuition discriminate.
  - intros a b [<-|[<-|[<-|[]]]] [<-|[<-|[<-|[]]]]; vm_compute; reflexivity.
  - intros a b [<-|[<-|[<-|[]]]] [<-|[<-|[<-|[]]]];
      first [left; reflexivity | right; vm_compute; reflexivity].
Defined.

(** ** The colour functions *)

Ltac split_ifs :=
  repeat match goal with
         | |- context [if ?b then _ else _] => destruct b
         | H : context [if ?b then _ else _] |- _ => destruct b
         end.

(** X7.  A colour function answers "gray" exactly when the conversion of
    its argument to a float is refused (ValueError, TypeError), and raises
    exactly when the conversion overflows, which it does on an integer of
    2^1024 - 2^970 or more; a missing value is neither case.  The relative
    signal level converts the signal first, and the noise only when the
    signal has converted. *)
Theorem gray_iff_conversion_fails (float_of_str : string -> option pyfloat)
    (x y : value) :
  (signal_color float_of_str x = Ok "gray"%string <->
   float float_of_str x = Refused) /\
  (signal_color float_of_str x = Raise <-> float float_of_str x = Overflowed) /\
  (bitrate_color float_of_str x = Ok "gray"%string <->
   float float_of_str x = Refused) /\
  (bitrate_color float_of_str x = Raise <-> float float_of_str x = Overflowed) /\
  (bitrate_color_halow float_of_str x = Ok "gray"%string <->
   float float_of_str x = Refused) /\
  (bitrate_color_halow float_of_str x = Raise <->
   float float_of_str x = Overflowed) /\
  (relative_signal_level_color float_of_str x y = Ok "gray"%string <->
   float float_of_str x = Refused \/
   ((exists s, float float_of_str x = Converted s) /\
    float float_of_str y = Refused)) /\
  (relative_signal_level_color float_of_str x y = Raise <->
   float float_of_str x = Overflowed \/
   ((exists s, float float_of_str x = Converted s) /\
    float float_of_str y = Overflowed)) /\
  (forall n, float float_of_str (Len n) = Overflowed <->
             (float_overflow <= Z.of_nat n)%Z) /\
  float float_of_str (Cell NaN) = Converted NotANumber.
Proof.
  assert (L : forall n, float float_of_str (Len n) = Overflowed <->
                        (float_overflow <= Z.of_nat n)%Z).
  { intros n. cbn [float].
    destruct (Z.of_nat n <? float_overflow)%Z eqn:E.
    - apply Z.ltb_lt in E. split; [discriminate|lia].
    - apply Z.ltb_ge in E. split; [intros _; exact E|reflexivity]. }
  unfold signal_color, bitrate_color, bitrate_color_halow,
    relative_signal_level_color.
  destruct (float float_of_str x) as [fx| |];
    destruct (float float_of_str y) as [fy| |];
    repeat match goal with |- _ /\ _ => split end;
    try exact L; try reflexivity;
    (split; intros Hyp;
     [split_ifs; try discriminate; try reflexivity;
      try (left; reflexivity);
      try (right; split; [eexists; reflexivity|reflexivity])
     |try reflexivity; try discriminate;
      try (destruct Hyp as [Hyp|[[s Hs] Hyp]]; discriminate)]).
Qed.

Ltac ge_cases :=
  repeat match goal with
         | |- context [Qle_bool ?c ?q] =>
             let E := fresh "E" in
             destruct (Qle_bool c q) eqn:E;
             [apply Qle_bool_iff in E
             |assert (~ (c <= q)%Q) by (rewrite <- Qle_bool_iff; congruence);
              clear E]
         end.

Lemma Qeq_bool_false (q c : Q) : ~ (q == c)%Q -> Qeq_bool q c = false.
Proof.
  intros Hne. destruct (Qeq_bool q c) eqn:E; [|reflexivity].
  apply Qeq_bool_iff in E. contradiction.
Qed.

(** X8.  [signal_color] is monotone away from zero: of two signal levels
    other than 0, the stronger one never gets the worse colour. *)
Theorem signal_color_monotone (float_of_str : string -> option pyfloat)
    (q1 q2 : Q) :
  (q1 <= q2)%Q -> ~ (q1 == 0)%Q -> ~ (q2 == 0)%Q ->
  exists c1 c2,
    signal_color float_of_str (Cell (Num q1)) = Ok c1 /\
    signal_color float_of_str (Cell (Num q2)) = Ok c2 /\
    (colour_rank c1 <= colour_rank c2)%nat.
Proof.
  intros L N1 N2. unfold signal_color. cbn [float float_eq float_ge].
  rewrite (Qeq_bool_false N1), (Qeq_bool_false N2).
  eexists. eexists. split; [reflexivity|]. split; [reflexivity|].
  ge_cases; first [vm_compute; lia | exfalso; lra].
Qed.

Lemma signal_color_monotone_witness :
  exists c1 c2,
    signal_color (fun _ => None) (Cell (Num (-75))) = Ok c1 /\
    signal_color (fun _ => None) (Cell (Num (-55))) = Ok c2 /\
    (colour_rank c1 <= colour_rank c2)%nat.
Proof.
  apply (@signal_color_monotone (fun _ => None) (-75) (-55));
    vm_compute; discriminate.
Defined.

(** X9.  [bitrate_color] and [bitrate_color_halow] are monotone away from
    zero: of two bitrates other than 0, the higher one never gets the worse
    colour. *)
Theorem bitrate_color_monotone (float_of_str : string -> option pyfloat)
    (q1 q2 : Q) :
  (q1 <= q2)%Q -> ~ (q1 == 0)%Q -> ~ (q2 == 0)%Q ->
  (exists c1 c2,
     bitrate_color float_of_str (Cell (Num q1)) = Ok c1 /\
     bitrate_color float_of_str (Cell (Num q2)) = Ok c2 /\
     (colour_rank c1 <= colour_rank c2)%nat) /\
  (exists c1 c2,
     bitrate_color_halow float_of_str (Cell (Num q1)) = Ok c1 /\
     bitrate_color_halow float_of_str (Cell (Num q2)) = Ok c2 /\
     (colour_rank c1 <= colour_rank c2)%nat).
Proof.
  intros L N1 N2. unfold bitrate_color, bitrate_color_halow.
  cbn [float float_eq float_ge].
  rewrite (Qeq_bool_false N1), (Qeq_bool_false N2).
  split; (eexists; eexists; split; [reflexivity|]; split; [reflexivity|]);
    ge_cases; first [vm_compute; lia | exfalso; lra].
Qed.

Lemma bitrate_color_monotone_witness :
  (exists c1 c2,
     bitrate_color (fun _ => None) (Cell (Num 12)) = Ok c1 /\
     bitrate_color (fun _ => None) (Cell (Num 45)) = Ok c2 /\
     (colour_rank c1 <= colour_rank c2)%nat) /\
  (exists c1 c2,
     bitrate_color_halow (fun _ => None) (Cell (Num 12)) = Ok c1 /\
     bitrate_color_halow (fun _ => None) (Cell (Num 45)) = Ok c2 /\
     (colour_rank c1 <= colour_rank c2)%nat).
Proof.
  apply (@bitrate_color_monotone (fun _ => None) 12 45);
    vm_compute; discriminate.
Defined.

(** The colours the examples above compare. *)
Example colours_of_examples :
  signal_color (fun _ => None) (Cell (Num (-75))) = Ok "red"%string /\
  signal_color (fun _ => None) (Cell (Num (-55))) = Ok "lightgreen"%string /\
  bitrate_color (fun _ => None) (Cell (Num 12)) = Ok "red"%string /\
  bitrate_color (fun _ => None) (Cell (Num 45)) = Ok "lightgreen"%string /\
  bitrate_color_halow (fun _ => None) (Cell (Num 12)) = Ok "orange"%string /\
  bitrate_color_halow (fun _ => None) (Cell (Num 45)) = Ok "green"%string /\
  signal_color (fun _ => None) (Cell (Str "n/a")) = Ok "gray"%string /\
  signal_color (fun _ => None) (Timestamp 0) = Ok "gray"%string /\
  signal_color (fun _ => None) (Len 3) = Ok "green"%string.
Proof. vm_compute. repeat split. Qed.

(** X10.  [bitrate_color] and [bitrate_color_halow] raise on the same
    arguments, those whose conversion overflows; on every other argument
    [bitrate_color_halow] gives a colour at least as good as
    [bitrate_color] does, and the two agree on when to answer "gray" and
    "black". *)
Theorem bitrate_color_halow_dominates (float_of_str : string -> option pyfloat)
    (x : value) :
  match bitrate_color float_of_str x, bitrate_color_halow float_of_str x with
  | Ok c, Ok c' =>
      float float_of_str x <> Overflowed /\
      (colour_rank c <= colour_rank c')%nat /\
      (c = "gray"%string <-> c' = "gray"%string) /\
      (c = "black"%string <-> c' = "black"%string)
  | Raise, Raise => float float_of_str x = Overflowed
  | _, _ => False
  end.
Proof.
  unfold bitrate_color, bitrate_color_halow.
  destruct (float float_of_str x) as [[q| | |]| |]; cbn [float_eq float_ge].
  - split; [discriminate|]. destruct (Qeq_bool q 0).
    + repeat split; auto.
    + split; [|split; split].
      * ge_cases; first [vm_compute; lia | exfalso; lra].
      * split_ifs; discriminate.
      * split_ifs; discriminate.
      * split_ifs; discriminate.
      * split_ifs; discriminate.
  - repeat split; auto; discriminate.
  - repeat split; auto; discriminate.
  - repeat split; auto; discriminate.
  - repeat split; auto; discriminate.
  - reflexivity.
Qed.

(** ** The markers of [main] *)

Lemma mapM_Ok_In {A B} (f : A -> result B) (l : list A) (ys : list B) (y : B) :
  mapM f l = Ok ys -> In y ys -> exists x, In x l /\ f x = Ok y.
Proof.
  revert ys. induction l as [|x l IH]; intros ys E Hy; cbn [mapM] in E.
  - injection E as <-. contradiction.
  - destruct (f x) as [y0|] eqn:Ex; cbn [bind] in E; [|discriminate].
    destruct (mapM f l) as [ys'|]; cbn [bind] in E; [|discriminate].
    injection E as <-. destruct Hy as [<-|Hy].
    + exists x. split; [left; reflexivity|exact Ex].
    + destruct (IH ys' eq_refl Hy) as (x' & Hx' & Ex').
      exists x'. split; [right; exact Hx'|exact Ex'].
Qed.

Lemma merge_bucket_rates (w : list sample) (r : merged) :
  Visualizer.merge_bucket w = Ok r ->
  (exists v, get "wireless_rxrate" r = Some v) /\
  (exists v, get "wireless_txrate" r = Some v) /\
  exists c,
    get "wireless_rxrate_min" r = Some (Cell c) /\
    is_minimum c (map (column rxrate) w).
Proof.
  intros E. destruct (merge_bucket_Ok_numeric w E) as [Hne Hn].
  destruct w as [|first rest]; [contradiction|].
  destruct (merge_bucket_numeric Hn)
    as (smin & smax & nmin & nmax & tmax & tmin & rmax & rmin &
        sig & noi & rs & txp & dis & cq & txr & rxr &
        E' & _ & (_ & _ & _ & P8) & _).
  rewrite E in E'. injection E' as ->.
  split; [eexists; reflexivity|]. split; [eexists; reflexivity|].
  exists rmin. split; [reflexivity|exact P8].
Qed.

(** X11.  In [main] of visualizer.py every marker is coloured by
    [bitrate_color] of the record's least rx rate: the records
    [merge_bucket] returns always have the bitrate columns, so the branch
    that colours by relative signal level is never taken.  The colour is
    never "gray", and it is "darkred" when the rx rate is missing in every
    sample of the window. *)
Theorem marker_color_by_rx_rate (float_of_str : string -> option pyfloat)
    (ws : list (list sample)) (out : list merged) :
  mapM Visualizer.merge_bucket ws = Ok out ->
  ws <> [] ->
  hasBitrates out = true /\
  Forall (fun row =>
            exists c colour,
              get "wireless_rxrate_min" row = Some (Cell c) /\
              bitrate_color float_of_str (Cell c) = Ok colour /\
              marker_color float_of_str out row = Ok colour /\
              colour <> "gray"%string /\
              (c = NaN -> colour = "darkred"%string))
    out.
Proof.
  intros E Hne.
  assert (HB : hasBitrates out = true).
  { destruct ws as [|w ws]; [contradiction|]. cbn [mapM] in E.
    destruct (Visualizer.merge_bucket w) as [r|] eqn:Er; cbn [bind] in E;
      [|discriminate].
    destruct (mapM Visualizer.merge_bucket ws) as [rs|]; cbn [bind] in E;
      [|discriminate].
    injection E as <-.
    destruct (merge_bucket_rates w Er) as ([v1 G1] & [v2 G2] & _).
    unfold hasBitrates, in_columns. cbn [existsb]. rewrite G1, G2. reflexivity. }
  split; [exact HB|].
  apply Forall_forall. intros row Hrow.
  destruct (mapM_Ok_In _ _ row E Hrow) as (w & _ & Er).
  destruct (merge_bucket_rates w Er) as (_ & _ & c & G & Hmin).
  exists c.
  unfold marker_color, getitem. rewrite HB, G. cbn [bind].
  unfold bitrate_color.
  destruct c as [q| |s]; cbn [float float_eq float_ge].
  - eexists. split; [reflexivity|]. split; [reflexivity|].
    split; [reflexivity|]. split; [split_ifs; discriminate|discriminate].
  - eexists. split; [reflexivity|]. split; [reflexivity|].
    split; [reflexivity|]. split; [discriminate|reflexivity].
  - contradiction.
Qed.

Lemma marker_color_by_rx_rate_witness :
  hasBitrates missing_window_frame = true /\
  Forall (fun row =>
            exists c colour,
              get "wireless_rxrate_min" row = Some (Cell c) /\
              bitrate_color (fun _ => None) (Cell c) = Ok colour /\
              marker_color (fun _ => None) missing_window_frame row = Ok colour /\
              colour <> "gray"%string /\
              (c = NaN -> colour = "darkred"%string))
    missing_window_frame.
Proof.
  apply (@marker_color_by_rx_rate (fun _ => None) [missing_window]
           missing_window_frame).
  - reflexivity.
  - discriminate.
Defined.

(** ** Walking a directory *)

(** A small tree: two csv files (one with a blank after the extension), a
    text file and an html file, in two directories. *)
Definition example_entries : dir_entries :=
  dir_entry "a.csv" RegularFile
    (dir_entry "notes.txt" RegularFile
       (dir_entry "sub"
          (Directory
             (dir_entry "b.csv " RegularFile
                (dir_entry "old.html" RegularFile no_entries)))
          no_entries)).

Scheme node_mutual := Induction for node Sort Prop
  with dir_entries_mutual := Induction for dir_entries Sort Prop.

Lemma has_dot_append (p s : string) :
  has_dot (String.append p s) = has_dot p || has_dot s.
Proof.
  induction p as [|c p IH]; cbn [String.append has_dot]; [reflexivity|].
  rewrite IH. apply orb_assoc.
Qed.

Lemma after_last_dot_append (p e : string) :
  has_dot e = false ->
  after_last_dot (String.append p (String "."%char e)) = e.
Proof.
  intros He. induction p as [|c p IH]; cbn [String.append after_last_dot].
  - rewrite He. reflexivity.
  - rewrite has_dot_append. cbn [has_dot is_dot].
    replace (Ascii.eqb "." ".") with true by reflexivity.
    rewrite orb_true_r. exact IH.
Qed.

Lemma extension_html (p : string) : extension (String.append p ".html") = "html"%string.
Proof.
  unfold extension. rewrite (after_last_dot_append p "html" eq_refl). reflexivity.
Qed.

Lemma append_neq (p s : string) : s <> EmptyString -> String.append p s <> p.
Proof.
  intros Hs. induction p as [|c p IH]; cbn [String.append].
  - exact Hs.
  - intros E. injection E as E. exact (IH E).
Qed.

Lemma andThen_Forall {A} (P : A -> Prop) (a b : walk A) :
  Forall P (fst a) -> Forall P (fst b) -> Forall P (fst (andThen a b)).
Proof.
  intros Ha Hb. unfold andThen. destruct (snd a); cbn [fst]; [|exact Ha].
  apply Forall_app. split; assumption.
Qed.

Lemma andThen_completes {A} (a b : walk A) :
  snd (andThen a b) = true <-> snd a = true /\ snd b = true.
Proof.
  unfold andThen. destruct (snd a) eqn:E; cbn [snd].
  - intuition.
  - rewrite E. intuition discriminate.
Qed.

Lemma andThen_In {A} (a b : walk A) (x : A) :
  snd a = true ->
  (In x (fst (andThen a b)) <-> In x (fst a) \/ In x (fst b)).
Proof.
  intros E. unfold andThen. rewrite E. cbn [fst]. apply in_app_iff.
Qed.

(** What [main] does for one regular tree: the claims of X12 for the walk of
    one list of entries. *)
Definition started_for_csv_files (calls : list call) (files : list string)
    : Prop :=
  Forall (fun c =>
            In (csv_file c) files /\
            extension (csv_file c) = "csv"%string /\
            output_html c = String.append (csv_file c) ".html" /\
            extension (output_html c) = "html"%string /\
            output_html c <> csv_file c) calls.

Lemma scan_maps_sound (generate_map_returns : string -> string -> bool)
    (entries : dir_entries) :
  forall dir,
    regular_entries entries = true ->
    started_for_csv_files (fst (scan_maps generate_map_returns dir entries))
      (files_below dir entries).
Proof.
  unfold started_for_csv_files.
  induction entries as [ |entries IHentries| | |name n IHn rest IHrest]
    using dir_entries_mutual
    with (P := fun n =>
            match n with
            | Directory sub =>
                forall dir,
                  regular_entries sub = true ->
                  Forall (fun c =>
                            In (csv_file c) (files_below dir sub) /\
                            extension (csv_file c) = "csv"%string /\
                            output_html c = String.append (csv_file c) ".html" /\
                            extension (output_html c) = "html"%string /\
                            output_html c <> csv_file c)
                    (fst (scan_maps generate_map_returns dir sub))
            | _ => True
            end).
  - exact I.
  - exact IHentries.
  - exact I.
  - intros dir _. constructor.
  - intros dir R. cbn [regular_entries] in R. apply andb_true_iff in R.
    destruct R as [Rn Rrest].
    cbn [scan_maps files_below]. apply andThen_Forall.
    + destruct n as [|sub|]; cbn [regular] in Rn.
      * destruct (String.eqb (extension (path_join dir name)) "csv") eqn:E;
          [|constructor].
        constructor; [|constructor]. cbn [csv_file output_html].
        apply String.eqb_eq in E.
        split; [apply in_or_app; left; left; reflexivity|].
        split; [exact E|]. split; [reflexivity|].
        split; [apply extension_html|]. apply append_neq. discriminate.
      * cbn [walk_maps]. eapply Forall_impl; [|apply (IHn (path_join dir name) Rn)].
        intros c (Hin & Hrest). split; [|exact Hrest].
        apply in_or_app. left. exact Hin.
      * discriminate.
    + eapply Forall_impl; [|apply (IHrest dir Rrest)].
      intros c (Hin & Hrest). split; [|exact Hrest].
      apply in_or_app. right. exact Hin.
Qed.

Lemma scan_maps_complete (generate_map_returns : string -> string -> bool)
    (entries : dir_entries) :
  forall dir p,
    regular_entries entries = true ->
    snd (scan_maps generate_map_returns dir entries) = true ->
    In p (files_below dir entries) ->
    extension p = "csv"%string ->
    In (GenerateMap p (String.append p ".html"))
      (fst (scan_maps generate_map_returns dir entries)).
Proof.
  induction entries as [ |entries IHentries| | |name n IHn rest IHrest]
    using dir_entries_mutual
    with (P := fun n =>
            match n with
            | Directory sub =>
                forall dir p,
                  regular_entries sub = true ->
                  snd (scan_maps generate_map_returns dir sub) = true ->
                  In p (files_below dir sub) ->
                  extension p = "csv"%string ->
                  In (GenerateMap p (String.append p ".html"))
                    (fst (scan_maps generate_map_returns dir sub))
            | _ => True
            end).
  - exact I.
  - exact IHentries.
  - exact I.
  - intros dir p _ _ [].
  - intros dir p R Hdone Hin Hext.
    cbn [regular_entries] in R. apply andb_true_iff in R.
    destruct R as [Rn Rrest].
    cbn [scan_maps files_below] in *.
    apply andThen_completes in Hdone. destruct Hdone as [D1 D2].
    apply (andThen_In _ _ _ D1).
    apply in_app_or in Hin. destruct Hin as [Hin|Hin].
    + left. destruct n as [|sub|]; cbn [regular walk_maps] in *.
      * destruct Hin as [<-|[]].
        apply String.eqb_eq in Hext. rewrite Hext. left. reflexivity.
      * apply (IHn _ _ Rn D1 Hin Hext).
      * discriminate.
    + right. apply (IHrest _ _ Rrest D2 Hin Hext).
Qed.

(** X12.  [main] of visualizer2.py on a directory that holds regular files
    and directories only: [generate_map] is started only for files below
    the directory whose path ends in the extension csv, each time with the
    output path "<csv path>.html", which differs from the input and has the
    extension html that [printLinks] looks for; and when the walk comes to
    its end it has been started for every such file. *)
Theorem main_maps_csv_files (generate_map_returns : string -> string -> bool)
    (csv_path output_path : string) (entries : dir_entries) :
  regular_entries entries = true ->
  started_for_csv_files
    (fst (walk_maps generate_map_returns csv_path output_path (Directory entries)))
    (files_below csv_path entries) /\
  (snd (walk_maps generate_map_returns csv_path output_path (Directory entries))
     = true ->
   forall p,
     In p (files_below csv_path entries) ->
     extension p = "csv"%string ->
     In (GenerateMap p (String.append p ".html"))
       (fst (walk_maps generate_map_returns csv_path output_path
               (Directory entries)))).
Proof.
  intros R. cbn [walk_maps]. split.
  - apply scan_maps_sound, R.
  - intros Hdone p Hin Hext. apply scan_maps_complete; assumption.
Qed.

Lemma main_maps_csv_files_witness :
  started_for_csv_files
    (fst (walk_maps (fun _ _ => true) "." "wireless_map.html"
            (Directory example_entries)))
    (files_below "." example_entries) /\
  (snd (walk_maps (fun _ _ => true) "." "wireless_map.html"
          (Directory example_entries)) = true ->
   forall p,
     In p (files_below "." example_entries) ->
     extension p = "csv"%string ->
     In (GenerateMap p (String.append p ".html"))
       (fst (walk_maps (fun _ _ => true) "." "wireless_map.html"
               (Directory example_entries)))).
Proof.
  apply (@main_maps_csv_files (fun _ _ => true) "." "wireless_map.html"
           example_entries).
  reflexivity.
Defined.

(** On the example tree both csv files get a map, next to them. *)
Example example_entries_maps :
  walk_maps (fun _ _ => true) "." "wireless_map.html" (Directory example_entries) =
  ([GenerateMap "./a.csv" "./a.csv.html";
    GenerateMap "./sub/b.csv " "./sub/b.csv .html"], true).
Proof. reflexivity. Qed.



Lemma scan_links_lines (entries : dir_entries) :
  forall dir line,
    In line (fst (scan_links dir entries)) ->
    (exists d, line = searching d) \/
    (exists path name,
       line = link path name /\
       In path (files_below dir entries) /\
       extension path = "html"%string).
Proof.
  induction entries as [ |entries IHentries| | |name n IHn rest IHrest]
    using dir_entries_mutual
    with (P := fun n =>
            match n with
            | Directory sub =>
                forall dir line,
                  In line (fst (scan_links dir sub)) ->
                  (exists d, line = searching d) \/
                  (exists path name,
                     line = link path name /\
                     In path (files_below dir sub) /\
                     extension path = "html"%string)
            | _ => True
            end).
  - exact I.
  - exact IHentries.
  - exact I.
  - intros dir line [].
  - intros dir line Hin. cbn [scan_links files_below] in Hin |- *.
    assert (Hcases :
              In line (fst match n with
                           | RegularFile =>
                               if String.eqb (extension (path_join dir name)) "html"
                               then ([link (path_join dir name) name], true)
                               else ([], true)
                           | _ => printLinks (path_join dir name) n
                           end) \/
              In line (fst (scan_links dir rest))).
    { revert Hin. unfold andThen at 1.
      destruct (snd _); cbn [fst]; [apply in_app_or|intros Hin; left; exact Hin]. }
    destruct Hcases as [Hin'|Hin'].
    + destruct n as [|sub|].
      * destruct (String.eqb (extension (path_join dir name)) "html") eqn:E;
          [|destruct Hin'].
        destruct Hin' as [<-|[]]. right.
        exists (path_join dir name), name.
        split; [reflexivity|]. split; [left; reflexivity|].
        apply String.eqb_eq, E.
      * cbn [printLinks] in Hin'. unfold andThen in Hin'. cbn [fst snd app] in Hin'.
        destruct Hin' as [<-|Hin']; [left; eexists; reflexivity|].
        destruct (IHn _ _ Hin') as [Hd|(path & nm & -> & Hp & He)];
          [left; exact Hd|].
        right. exists path, nm. split; [reflexivity|].
        split; [apply in_or_app; left; exact Hp|exact He].
      * cbn [printLinks fst] in Hin'. destruct Hin' as [<-|[]].
        left. eexists. reflexivity.
    + destruct (IHrest _ _ Hin') as [Hd|(path & nm & -> & Hp & He)];
        [left; exact Hd|].
      right. exists path, nm. split; [reflexivity|].
      split; [apply in_or_app; right; exact Hp|exact He].
Qed.

Lemma scan_links_lists (entries : dir_entries) :
  forall dir path,
    snd (scan_links dir entries) = true ->
    In path (files_below dir entries) ->
    extension path = "html"%string ->
    exists name, In (link path name) (fst (scan_links dir entries)).
Proof.
  induction entries as [ |entries IHentries| | |name n IHn rest IHrest]
    using dir_entries_mutual
    with (P := fun n =>
            match n with
            | Directory sub =>
                forall dir path,
                  snd (scan_links dir sub) = true ->
                  In path (files_below dir sub) ->
                  extension path = "html"%string ->
                  exists name, In (link path name) (fst (scan_links dir sub))
            | _ => True
            end).
  - exact I.
  - exact IHentries.
  - exact I.
  - intros dir path _ [].
  - intros dir path Hdone Hin Hext. cbn [scan_links files_below] in *.
    apply andThen_completes in Hdone. destruct Hdone as [D1 D2].
    apply in_app_or in Hin. destruct Hin as [Hin|Hin].
    + destruct n as [|sub|].
      * destruct Hin as [<-|[]]. exists name.
        apply (andThen_In _ _ _ D1). left.
        apply String.eqb_eq in Hext. rewrite Hext. left. reflexivity.
      * cbn [printLinks] in D1 |- *.
        pose proof D1 as D1'.
        apply andThen_completes in D1'. destruct D1' as [_ Dsub].
        destruct (IHn _ _ Dsub Hin Hext) as [nm Hnm]. exists nm.
        apply (andThen_In _ _ _ D1). left.
        apply (andThen_In ([searching (path_join dir name)], true) _ _ eq_refl).
        right. exact Hnm.
      * destruct Hin.
    + destruct (IHrest _ _ D2 Hin Hext) as [nm Hnm]. exists nm.
      apply (andThen_In _ _ _ D1). right. exact Hnm.
Qed.

(** X14.  The lines [printLinks] prints for a directory are "Searching
    directory" lines and links to regular files below the directory whose
    extension is html; when it comes to its end, every such file has its
    link.  With X12: the maps [main] of visualizer2.py writes next to the
    csv files are the files that get links. *)
Theorem printLinks_links_html_files (dir : string) (entries : dir_entries) :
  (forall line,
     In line (fst (printLinks dir (Directory entries))) ->
     (exists d, line = searching d) \/
     (exists path name,
        line = link path name /\
        In path (files_below dir entries) /\
        extension path = "html"%string)) /\
  (snd (printLinks dir (Directory entries)) = true ->
   forall path,
     In path (files_below dir entries) ->
     extension path = "html"%string ->
     exists name, In (link path name) (fst (printLinks dir (Directory entries)))).
Proof.
  cbn [printLinks]. unfold andThen at 1 3. cbn [fst snd app]. split.
  - intros line [<-|Hin]; [left; eexists; reflexivity|].
    apply (scan_links_lines entries dir line Hin).
  - intros Hdone path Hin Hext.
    apply andThen_completes in Hdone. destruct Hdone as [_ Hdone].
    destruct (scan_links_lists entries dir path Hdone Hin Hext) as [nm Hnm].
    exists nm. right. exact Hnm.
Qed.

(** ** Windows once more *)

(** The first sample of a window is an earliest one. *)
Definition earliest_first (w : list sample) : Prop :=
  match w with
  | [] => False
  | a :: rest => Forall (by_datetime a) rest
  end.

Lemma windower_from_earliest_first (l : list sample) :
  forall a w,
    Forall (by_datetime a) (w ++ l) ->
    StronglySorted by_datetime l ->
    Forall earliest_first (windower_from (datetime a) (a :: w) l).
Proof.
  induction l as [|r l IH]; intros a w F S; cbn [windower_from].
  - rewrite app_nil_r in F. constructor; [exact F|constructor].
  - inversion S as [|? ? S' Hr]; subst.
    destruct (datetime r - datetime a <=? threshold)%Z.
    + apply IH; [|exact S']. rewrite <- app_assoc. exact F.
    + constructor.
      * apply Forall_app in F. apply F.
      * apply (IH r []); [exact Hr|exact S'].
Qed.

Lemma windower_earliest_first (l : list sample) :
  Sorted by_datetime l -> Forall earliest_first (windower l).
Proof.
  intros S. apply Sorted_StronglySorted in S.
  - destruct l as [|a l]; [constructor|]. cbn [windower].
    inversion S as [|? ? S' Ha]; subst.
    apply (@windower_from_earliest_first l a []); assumption.
  - intros x y z. unfold by_datetime. lia.
Qed.

Lemma StronglySorted_app {A} (R : A -> A -> Prop) (l1 l2 : list A) :
  StronglySorted R (l1 ++ l2) -> StronglySorted R l1 /\ StronglySorted R l2.
Proof.
  induction l1 as [|x l1 IH]; cbn [app]; intros S.
  - split; [constructor|exact S].
  - inversion S as [|? ? S' F]; subst. destruct (IH S') as [S1 S2].
    split; [|exact S2]. constructor; [exact S1|].
    apply Forall_app in F. apply F.
Qed.

Lemma StronglySorted_concat {A} (R : A -> A -> Prop) (ls : list (list A)) :
  StronglySorted R (List.concat ls) -> Forall (StronglySorted R) ls.
Proof.
  induction ls as [|l ls IH]; cbn [List.concat]; intros S; [constructor|].
  apply StronglySorted_app in S. destruct S as [S1 S2].
  constructor; [exact S1|apply IH, S2].
Qed.

(** Each window is in ascending time order. *)
Lemma windower_Sorted (l : list sample) :
  Sorted by_datetime l -> Forall (Sorted by_datetime) (windower l).
Proof.
  intros S. apply Sorted_StronglySorted in S.
  - rewrite <- (concat_windower l) in S. apply StronglySorted_concat in S.
    eapply Forall_impl; [|exact S]. intros w. apply StronglySorted_Sorted.
  - intros x y z. unfold by_datetime. lia.
Qed.

(** A stable sort leaves a sorted list as it is. *)
Lemma insertion_sort_sorted (l : list sample) :
  Sorted by_datetime l -> insertion_sort datetime_leb l = l.
Proof.
  induction l as [|x l IH]; intros S; [reflexivity|].
  inversion S as [|? ? S' Hd]; subst.
  cbn [insertion_sort fold_right]. fold (insertion_sort datetime_leb l).
  rewrite (IH S'). destruct Hd as [|y l Hxy]; [reflexivity|].
  cbn [insert_sorted]. unfold datetime_leb at 1.
  apply Z.leb_le in Hxy. rewrite Hxy. reflexivity.
Qed.

(** X15.  Windowing is idempotent: every window emitted for a group is in
    ascending time order and, taken as a group of its own, comes out as one
    window holding its samples sorted again; that is the window itself when
    no two of its samples share a timestamp (the order of samples that do is
    the sort's choice). *)
Theorem windows_idempotent `{Pandas} (group w : list sample)
    (ws : list (list sample)) :
  windows group = Ok ws ->
  In w ws ->
  Sorted by_datetime w /\
  windows w = Ok [sort_values_datetime w] /\
  (NoDup (map (@datetime _ _) w) -> windows w = Ok [w]).
Proof.
  intros E Hw. apply windows_windower in E. subst ws.
  pose proof (windower_anchored (sort_values_datetime group)) as Ha.
  pose proof (windower_earliest_first (sort_group_Sorted group)) as He.
  pose proof (windower_Sorted (sort_group_Sorted group)) as Hs.
  rewrite Forall_forall in Ha, He, Hs.
  specialize (Ha w Hw). specialize (He w Hw). specialize (Hs w Hw).
  assert (W : windows w = Ok [sort_values_datetime w]).
  { destruct w as [|a rest]; [contradiction|].
    cbn [anchored earliest_first] in Ha, He. rewrite Forall_forall in Ha, He.
    apply windows_within_threshold; [discriminate|].
    assert (B : forall x, In x (a :: rest) ->
                  (datetime a <= datetime x <= datetime a + threshold)%Z).
    { intros x [<-|Hx].
      - unfold threshold, timedelta, MERGE_WINDOW_SECONDS. lia.
      - specialize (Ha x Hx). specialize (He x Hx). unfold by_datetime in He. lia. }
    intros x y Hx Hy. apply B in Hx. apply B in Hy. lia. }
  split; [exact Hs|]. split; [exact W|].
  intros ND. rewrite W, (sort_values_datetime_sorted Hs ND). reflexivity.
Qed.

Lemma windows_idempotent_witness :
  Sorted by_datetime
    [sample_at (seconds 0) 10%Q (Num (-50)) (Num (-60));
     sample_at (seconds 5) 10%Q (Num (-55)) (Num (-60))] /\
  windows (H := stable_pandas)
    [sample_at (seconds 0) 10%Q (Num (-50)) (Num (-60));
     sample_at (seconds 5) 10%Q (Num (-55)) (Num (-60))] =
  Ok [sort_values_datetime (Pandas := stable_pandas)
        [sample_at (seconds 0) 10%Q (Num (-50)) (Num (-60));
         sample_at (seconds 5) 10%Q (Num (-55)) (Num (-60))]] /\
  (NoDup (map (@datetime _ _)
            [sample_at (seconds 0) 10%Q (Num (-50)) (Num (-60));
             sample_at (seconds 5) 10%Q (Num (-55)) (Num (-60))]) ->
   windows (H := stable_pandas)
     [sample_at (seconds 0) 10%Q (Num (-50)) (Num (-60));
      sample_at (seconds 5) 10%Q (Num (-55)) (Num (-60))] =
   Ok [[sample_at (seconds 0) 10%Q (Num (-50)) (Num (-60));
        sample_at (seconds 5) 10%Q (Num (-55)) (Num (-60))]]).
Proof.
  apply (@windows_idempotent stable_pandas
           [sample_at (seconds 13) 10%Q NaN (Num (-60));
            sample_at (seconds 0) 10%Q (Num (-50)) (Num (-60));
            sample_at (seconds 5) 10%Q (Num (-55)) (Num (-60))]
           [sample_at (seconds 0) 10%Q (Num (-50)) (Num (-60));
            sample_at (seconds 5) 10%Q (Num (-55)) (Num (-60))]
           [[sample_at (seconds 0) 10%Q (Num (-50)) (Num (-60));
             sample_at (seconds 5) 10%Q (Num (-55)) (Num (-60))];
            [sample_at (seconds 13) 10%Q NaN (Num (-60))]]).
  - vm_compute. reflexivity.
  - left. reflexivity.
Defined.

(** With a stable sort every window comes out as itself, shared timestamps
    or not. *)
Lemma windows_idempotent_stable (group w : list sample)
    (ws : list (list sample)) :
  windows (H := stable_pandas) group = Ok ws ->
  In w ws ->
  windows (H := stable_pandas) w = Ok [w].
Proof.
  intros E Hw.
  pose proof (windows_windower (H := stable_pandas) group E) as Ews.
  pose proof (windower_Sorted
                (sort_group_Sorted (Pandas := stable_pandas) group)) as Hs.
  pose proof (windower_anchored
                (sort_values_datetime (Pandas := stable_pandas) group)) as Ha.
  pose proof (windower_earliest_first
                (sort_group_Sorted (Pandas := stable_pandas) group)) as He.
  rewrite <- Ews in Hs, Ha, He. rewrite Forall_forall in Hs, Ha, He.
  specialize (Ha w Hw). specialize (He w Hw). specialize (Hs w Hw).
  destruct w as [|a rest]; [contradiction|].
  cbn [anchored earliest_first] in Ha, He. rewrite Forall_forall in Ha, He.
  assert (B : forall x, In x (a :: rest) ->
                (datetime a <= datetime x <= datetime a + threshold)%Z).
  { intros x [<-|Hx].
    - unfold threshold, timedelta, MERGE_WINDOW_SECONDS. lia.
    - specialize (Ha x Hx). specialize (He x Hx). unfold by_datetime in He. lia. }
  rewrite (@windows_within_threshold stable_pandas (a :: rest)).
  - cbn [sort_values_datetime stable_pandas].
    rewrite (insertion_sort_sorted Hs). reflexivity.
  - discriminate.
  - intros x y Hx Hy. apply B in Hx. apply B in Hy. lia.
Qed.

(** ** The frame returned and the outcomes of [main] *)

(** X16.  The frame [preprocess_data] returns is a new one: its reference
    was not in use before the call, so it is not the input frame, which
    still holds the rows as read. *)
Theorem preprocess_data_returns_new_frame `{Pandas}
    (h h' : heap) (df out_df : ref) (rows : list raw_row) :
  nth_error h df = Some (RawFrame rows) ->
  Visualizer.preprocess_data df h = (Ok out_df, h') ->
  nth_error h out_df = None /\
  out_df <> df /\
  nth_error h' df = Some (RawFrame rows) /\
  exists out, nth_error h' out_df = Some (MergedFrame out).
Proof.
  intros Hdf. rewrite (preprocess_data_run h df Hdf).
  destruct (Visualizer.merge_groups Visualizer.merge_bucket (groups_of rows))
    as [out|]; [|discriminate].
  intros [= <- <-].
  assert (Hlt : (df < List.length h)%nat).
  { apply nth_error_Some. rewrite Hdf. discriminate. }
  split; [apply nth_error_None; lia|].
  split; [lia|].
  split; [rewrite nth_error_app1 by exact Hlt; exact Hdf|].
  exists out. rewrite nth_error_app2 by lia.
  replace (List.length h + 3 - List.length h)%nat with 3%nat by lia.
  reflexivity.
Qed.

Lemma preprocess_data_returns_new_frame_witness :
  nth_error [RawFrame example_csv] 4%nat = None /\
  4%nat <> 0%nat /\
  nth_error (snd (Visualizer.preprocess_data (H := stable_pandas) 0%nat
                    [RawFrame example_csv])) 0%nat
    = Some (RawFrame example_csv) /\
  exists out,
    nth_error (snd (Visualizer.preprocess_data (H := stable_pandas) 0%nat
                      [RawFrame example_csv])) 4%nat
      = Some (MergedFrame out).
Proof.
  apply (@preprocess_data_returns_new_frame stable_pandas
           [RawFrame example_csv]
           (snd (Visualizer.preprocess_data (H := stable_pandas) 0%nat
                   [RawFrame example_csv]))
           0%nat 4%nat example_csv).
  - reflexivity.
  - vm_compute. reflexivity.
Defined.

Lemma timedeltas_fit_nil : timedeltas_fit [].
Proof. intros a b []. Qed.

(** X17.  [main] of visualizer.py has three outcomes.  It raises whenever a
    metric cell of a valid sample is text, and otherwise only when two valid
    timestamps are 2^63 nanoseconds or more apart; it prints that there is
    no valid data exactly when there is no valid sample; on valid samples
    that are numeric and less than 2^63 nanoseconds apart it saves, under
    the path it was given, a map with one marker for each window, whose
    [samples_merged] add up to the number of valid samples. *)
Theorem main_outcomes `{Pandas} (csv : list raw_row) (output_html : string) :
  (~ numeric_window (valid_samples csv) ->
   Visualizer.main csv output_html = Raise) /\
  (Visualizer.main csv output_html = Raise ->
   ~ (numeric_window (valid_samples csv) /\
      timedeltas_fit (valid_samples csv))) /\
  (Visualizer.main csv output_html =
     Ok [Printed "No valid data after preprocessing."%string] <->
   valid_samples csv = []) /\
  (numeric_window (valid_samples csv) ->
   timedeltas_fit (valid_samples csv) ->
   valid_samples csv <> [] ->
   exists markers ws,
     Visualizer.main csv output_html =
       Ok [Saved output_html markers;
           Printed (String.append "Map saved to "%string output_html)] /\
     emitted_windows csv = Ok ws /\
     List.length markers = List.length ws /\
     total_samples_merged markers = List.length (valid_samples csv)).
Proof.
  rewrite main_run.
  pose proof (merge_groups_total csv) as T.
  pose proof (@merge_groups_Ok_numeric _ csv) as N.
  pose proof (merge_groups_returns csv) as R.
  destruct (Visualizer.merge_groups Visualizer.merge_bucket (groups_of csv))
    as [[|r rows]|] eqn:G.
  - specialize (T [] eq_refl). specialize (N [] eq_refl). cbn in T.
    assert (E : valid_samples csv = []).
    { destruct (valid_samples csv); [reflexivity|discriminate]. }
    split; [intros Hn; contradiction|].
    split; [discriminate|].
    split; [split; [intros _; exact E|reflexivity]|].
    intros _ _ Hne. contradiction.
  - specialize (T _ eq_refl). specialize (N _ eq_refl).
    assert (Hne : valid_samples csv <> []).
    { intros E. rewrite (groups_of_no_valid_samples csv E) in G. discriminate G. }
    split; [intros Hn; contradiction|].
    split; [discriminate|].
    split; [split; [discriminate|intros E; contradiction]|].
    intros _ Hf _. exists (r :: rows), (all_windows (groups_of csv)).
    split; [reflexivity|]. split; [|split; [|exact T]].
    + unfold emitted_windows.
      rewrite (merge_groups_windows _ (groups_of_fit csv Hf)). apply mapM_Ok.
    + apply merge_groups_Ok in G. apply (mapM_length _ _ G).
  - split; [reflexivity|].
    split; [intros _ [Hn Hf]; destruct (R Hn Hf) as [out Eout]; discriminate|].
    split; [split; [discriminate|]|].
    { intros E. exfalso. destruct R as [out Eout]; [| |discriminate].
      - rewrite E. constructor.
      - rewrite E. apply timedeltas_fit_nil. }
    intros Hn Hf _. destruct (R Hn Hf) as [out Eout]. discriminate.
Qed.

(** The three outcomes, and the raise on timestamps too far apart. *)
Example main_examples :
  Visualizer.main (H := stable_pandas)
    (raw_at (Num 3) (Some 10%Q) (Str "abc") :: example_csv) "map.html"
    = Raise /\
  Visualizer.main (H := stable_pandas) unusable_csv "map.html"
    = Ok [Printed "No valid data after preprocessing."%string] /\
  (exists markers,
     Visualizer.main (H := stable_pandas) example_csv "map.html"
       = Ok [Saved "map.html" markers; Printed "Map saved to map.html"%string] /\
     List.length markers = 3%nat) /\
  Visualizer.main (H := stable_pandas)
    [raw_at (Num (-4611686018427387904)) (Some 10%Q) (Num (-50));
     raw_at (Num 4611686018427387904) (Some 10%Q) (Num (-50))] "map.html"
    = Raise.
Proof.
  split; [reflexivity|]. split; [reflexivity|]. split; [|reflexivity].
  eexists. split; reflexivity.
Qed.
